(** * The book store of [server.js]: persistence, versioning and queries

    A shallow embedding of the business logic of [src/server.js]
    ([validateBook], [createBook], [updateBook], [deleteBook],
    [applyQuery] and the [/api/books/bulk] route) together with the
    fragment of JavaScript's dynamic semantics these functions rely on.

    Modelling conventions.
    - JavaScript values are the values [JSON.parse] can produce, plus
      [undefined].  Objects carry their own properties as an association
      list; arrays and objects have no identity in the model, so [===]
      between two of them is [false] (a freshly parsed request value is
      never the same reference as a stored one).
    - Numbers are [NaN], the two infinities, and exact decimals
      [m / 10^k].  The binary rounding of IEEE doubles and the sign of
      zero are not modelled.
    - Strings are Rocq strings (sequences of 8-bit characters);
      [toLowerCase] lowers the ASCII letters only.
    - The clock ([nowISO]) and the random generator ([crypto.randomBytes])
      are inputs of the operations that consult them.
    - The global [db] and the file [data.json] are the two components of
      an explicit state. *)

From Stdlib Require Import ZArith NArith List String Ascii Bool Lia.
From Stdlib Require Import DecimalString Sorted Permutation.
From Stdlib Require OrderedTypeEx.
Import ListNotations.

Local Open Scope string_scope.
Local Open Scope Z_scope.

(* ------------------------------------------------------------------ *)
(** ** Numbers *)
(* ------------------------------------------------------------------ *)

(** [Fin m k] is the number [m / 10^k]. *)
Inductive number : Type :=
| NaN
| PosInf
| NegInf
| Fin (m : Z) (k : nat).

(** Canonical representative: trailing decimal zeros are removed from the
    fraction, so that an integer is always [Fin z 0]. *)
Fixpoint norm (m : Z) (k : nat) : number :=
  match k with
  | O => Fin m 0
  | S k' => if m mod 10 =? 0 then norm (m / 10) k' else Fin m k
  end.

Definition pow10 (k : nat) : Z := 10 ^ Z.of_nat k.

Definition num_sign (x : number) : Z :=
  match x with
  | NaN => 0
  | PosInf => 1
  | NegInf => -1
  | Fin m _ => Z.sgn m
  end.

(** Comparison of two numbers; [None] when one of them is [NaN]. *)
Definition num_compare (x y : number) : option comparison :=
  match x, y with
  | NaN, _ | _, NaN => None
  | PosInf, PosInf => Some Eq
  | NegInf, NegInf => Some Eq
  | PosInf, _ => Some Gt
  | _, PosInf => Some Lt
  | NegInf, _ => Some Lt
  | _, NegInf => Some Gt
  | Fin m1 k1, Fin m2 k2 => Some (m1 * pow10 k2 ?= m2 * pow10 k1)
  end.

Definition num_ltb (x y : number) : bool :=
  match num_compare x y with Some Lt => true | _ => false end.

Definition num_gtb (x y : number) : bool := num_ltb y x.

Definition num_eqb (x y : number) : bool :=
  match num_compare x y with Some Eq => true | _ => false end.

Definition num_add (x y : number) : number :=
  match x, y with
  | NaN, _ | _, NaN => NaN
  | PosInf, NegInf | NegInf, PosInf => NaN
  | PosInf, _ | _, PosInf => PosInf
  | NegInf, _ | _, NegInf => NegInf
  | Fin m1 k1, Fin m2 k2 => norm (m1 * pow10 k2 + m2 * pow10 k1) (k1 + k2)
  end.

Definition num_mul (x y : number) : number :=
  match x, y with
  | NaN, _ | _, NaN => NaN
  | Fin m1 k1, Fin m2 k2 => norm (m1 * m2) (k1 + k2)
  | _, _ =>
      match num_sign x * num_sign y with
      | 0 => NaN
      | Zpos _ => PosInf
      | Zneg _ => NegInf
      end
  end.

(** Division by ten, the only division the program performs. *)
Definition num_div10 (x : number) : number :=
  match x with
  | Fin m k => norm m (S k)
  | _ => x
  end.

Definition num_neg (x : number) : number :=
  match x with
  | NaN => NaN
  | PosInf => NegInf
  | NegInf => PosInf
  | Fin m k => Fin (- m) k
  end.

(** [Math.max] and [Math.min] of two arguments: [NaN] is contagious. *)
Definition Math_max (x y : number) : number :=
  match num_compare x y with
  | None => NaN
  | Some Lt => y
  | Some _ => x
  end.

Definition Math_min (x y : number) : number :=
  match num_compare x y with
  | None => NaN
  | Some Gt => y
  | Some _ => x
  end.

(** [Math.round]: the nearest integer, halves rounded up. *)
Definition Math_round (x : number) : number :=
  match x with
  | Fin m k => Fin ((2 * m + pow10 k) / (2 * pow10 k)) 0
  | _ => x
  end.

Definition Number_isInteger (x : number) : bool :=
  match x with
  | Fin m k => m mod pow10 k =? 0
  | _ => false
  end.

Definition Number_isNaN (x : number) : bool :=
  match x with NaN => true | _ => false end.

(** [ToIntegerOrInfinity], as used by [Array.prototype.slice]: truncation
    towards zero, [NaN] becoming 0.  The infinities are kept. *)
Inductive int_or_inf : Type :=
| IInt (z : Z)
| IPosInf
| INegInf.

Definition ToIntegerOrInfinity (x : number) : int_or_inf :=
  match x with
  | NaN => IInt 0
  | PosInf => IPosInf
  | NegInf => INegInf
  | Fin m k => IInt (Z.quot m (pow10 k))
  end.

(* ------------------------------------------------------------------ *)
(** ** Strings *)
(* ------------------------------------------------------------------ *)

Definition chars (s : string) : list ascii := list_ascii_of_string s.
Definition str (cs : list ascii) : string := string_of_list_ascii cs.

Definition in_range (lo hi : nat) (c : ascii) : bool :=
  let n := nat_of_ascii c in (Nat.leb lo n && Nat.leb n hi)%bool.

Definition lower_char (c : ascii) : ascii :=
  if in_range 65 90 c then ascii_of_nat (nat_of_ascii c + 32) else c.

(** [String.prototype.toLowerCase] *)
Definition toLowerCase (s : string) : string := str (map lower_char (chars s)).

Fixpoint starts_with (p s : list ascii) : bool :=
  match p, s with
  | [], _ => true
  | _ :: _, [] => false
  | a :: p', b :: s' => (Ascii.eqb a b && starts_with p' s')%bool
  end.

Fixpoint includes_chars (s q : list ascii) : bool :=
  (starts_with q s ||
   match s with
   | [] => false
   | _ :: s' => includes_chars s' q
   end)%bool.

(** [String.prototype.includes] *)
Definition includes (s q : string) : bool := includes_chars (chars s) (chars q).

(** [Array.prototype.join] on an array of strings. *)
Fixpoint join (sep : string) (l : list string) : string :=
  match l with
  | [] => ""
  | [s] => s
  | s :: l' => s ++ sep ++ join sep l'
  end.

(** *** [StringToNumber] *)

(** The white space [StringToNumber] trims, as far as it fits in eight
    bits: tab, line feed, vertical tab, form feed, carriage return and
    space. *)
Definition is_ws (c : ascii) : bool :=
  let n := nat_of_ascii c in (in_range 9 13 c || Nat.eqb n 32)%bool.

Fixpoint drop_ws (cs : list ascii) : list ascii :=
  match cs with
  | c :: r => if is_ws c then drop_ws r else cs
  | [] => []
  end.

Definition trim_chars (cs : list ascii) : list ascii :=
  rev (drop_ws (rev (drop_ws cs))).

Definition dec_digit (c : ascii) : option Z :=
  if in_range 48 57 c then Some (Z.of_nat (nat_of_ascii c) - 48) else None.

Definition oct_digit (c : ascii) : option Z :=
  if in_range 48 55 c then Some (Z.of_nat (nat_of_ascii c) - 48) else None.

Definition bin_digit (c : ascii) : option Z :=
  if in_range 48 49 c then Some (Z.of_nat (nat_of_ascii c) - 48) else None.

Definition hex_digit (c : ascii) : option Z :=
  if in_range 48 57 c then Some (Z.of_nat (nat_of_ascii c) - 48)
  else if in_range 97 102 c then Some (Z.of_nat (nat_of_ascii c) - 87)
  else if in_range 65 70 c then Some (Z.of_nat (nat_of_ascii c) - 55)
  else None.

Fixpoint take_digits (val : ascii -> option Z) (cs : list ascii)
  : list Z * list ascii :=
  match cs with
  | [] => ([], [])
  | c :: r =>
      match val c with
      | Some d => let (ds, r') := take_digits val r in (d :: ds, r')
      | None => ([], cs)
      end
  end.

Definition digits_value (base : Z) (ds : list Z) : Z :=
  fold_left (fun acc d => acc * base + d) ds 0.

(** [m * 10^e] *)
Definition scale10 (m e : Z) : number :=
  if 0 <=? e then Fin (m * 10 ^ e) 0 else norm m (Z.to_nat (- e)).

Definition is_char (a : string) (c : ascii) : bool :=
  match a with
  | String a' EmptyString => Ascii.eqb a' c
  | _ => false
  end.

(** The [ExponentPart] that may follow a mantissa; nothing may follow it. *)
Definition parse_exponent (cs : list ascii) : option Z :=
  match cs with
  | [] => Some 0
  | c :: r =>
      if (is_char "e" c || is_char "E" c)%bool then
        let '(neg, r1) :=
          match r with
          | s :: r' =>
              if is_char "+" s then (false, r')
              else if is_char "-" s then (true, r')
              else (false, r)
          | [] => (false, r)
          end in
        match take_digits dec_digit r1 with
        | (d :: ds, []) =>
            let e := digits_value 10 (d :: ds) in
            Some (if neg then - e else e)
        | _ => None
        end
      else None
  end.

(** [StrUnsignedDecimalLiteral] *)
Definition parse_unsigned (cs : list ascii) : option number :=
  if starts_with (chars "Infinity") cs then
    if Nat.eqb (List.length cs) 8 then Some PosInf else None
  else
    let (ip, r1) := take_digits dec_digit cs in
    let '(fp, r2) :=
      match r1 with
      | c :: r => if is_char "." c then take_digits dec_digit r else ([], r1)
      | [] => ([], r1)
      end in
    match (ip ++ fp)%list with
    | [] => None
    | ds =>
        match parse_exponent r2 with
        | Some e => Some (scale10 (digits_value 10 ds) (e - Z.of_nat (List.length fp)))
        | None => None
        end
    end.

(** The hexadecimal, octal and binary integer literals (no sign). *)
Definition parse_radix (cs : list ascii) : option number :=
  match cs with
  | z :: x :: r =>
      if is_char "0" z then
        let lit (base : Z) (val : ascii -> option Z) :=
          match take_digits val r with
          | (d :: ds, []) => Some (Fin (digits_value base (d :: ds)) 0)
          | _ => Some NaN
          end in
        if (is_char "x" x || is_char "X" x)%bool then lit 16 hex_digit
        else if (is_char "o" x || is_char "O" x)%bool then lit 8 oct_digit
        else if (is_char "b" x || is_char "B" x)%bool then lit 2 bin_digit
        else None
      else None
  | _ => None
  end.

Definition or_NaN (o : option number) : number :=
  match o with Some n => n | None => NaN end.

Definition StringToNumber (s : string) : number :=
  match trim_chars (chars s) with
  | [] => Fin 0 0
  | c :: r =>
      match parse_radix (c :: r) with
      | Some n => n
      | None =>
          if is_char "+" c then or_NaN (parse_unsigned r)
          else if is_char "-" c then num_neg (or_NaN (parse_unsigned r))
          else or_NaN (parse_unsigned (c :: r))
      end
  end.

(** *** [Number::toString] *)

Definition decimal_digits (n : N) : list ascii :=
  chars (NilZero.string_of_uint (N.to_uint n)).

Fixpoint drop_zeros (cs : list ascii) : list ascii :=
  match cs with
  | c :: r => if is_char "0" c then drop_zeros r else cs
  | [] => []
  end.

Definition strip_trailing_zeros (cs : list ascii) : list ascii :=
  rev (drop_zeros (rev cs)).

Definition zeros (n : nat) : list ascii := repeat "0"%char n.

Definition number_to_string (x : number) : string :=
  match x with
  | NaN => "NaN"
  | PosInf => "Infinity"
  | NegInf => "-Infinity"
  | Fin m0 k0 =>
      match norm m0 k0 with
      | Fin m k =>
          if m =? 0 then "0"
          else
            let sgn := if m <? 0 then chars "-" else [] in
            let ds := decimal_digits (Z.abs_N m) in
            let s := strip_trailing_zeros ds in
            let ks := Z.of_nat (List.length s) in
            let n := Z.of_nat (List.length ds) - Z.of_nat k in
            str (sgn ++
              if ((ks <=? n) && (n <=? 21))%bool then
                s ++ zeros (Z.to_nat (n - ks))
              else if ((0 <? n) && (n <=? 21))%bool then
                firstn (Z.to_nat n) s ++ chars "." ++ skipn (Z.to_nat n) s
              else if ((-6 <? n) && (n <=? 0))%bool then
                chars "0." ++ zeros (Z.to_nat (- n)) ++ s
              else
                let e := n - 1 in
                let es := (if e <? 0 then chars "-" else chars "+")
                            ++ decimal_digits (Z.abs_N e) in
                match s with
                | [d] => d :: chars "e" ++ es
                | d :: r => d :: chars "." ++ r ++ chars "e" ++ es
                | [] => []
                end)%list
      | _ => "NaN"
      end
  end.

(* ------------------------------------------------------------------ *)
(** ** Values *)
(* ------------------------------------------------------------------ *)

Set Warnings "-register-all".

Inductive jsvalue : Type :=
| JUndefined
| JNull
| JBool (b : bool)
| JNum (n : number)
| JStr (s : string)
| JArr (l : list jsvalue)
| JObj (props : list (string * jsvalue)).

Definition object : Type := list (string * jsvalue).

(** [typeof v === 'string'] *)
Definition is_string (v : jsvalue) : bool :=
  match v with JStr _ => true | _ => false end.

(** [Array.isArray] *)
Definition Array_isArray (v : jsvalue) : bool :=
  match v with JArr _ => true | _ => false end.

(** [v == null], true of [null] and [undefined] only. *)
Definition nullish (v : jsvalue) : bool :=
  match v with JUndefined | JNull => true | _ => false end.

(** [ToBoolean] *)
Definition truthy (v : jsvalue) : bool :=
  match v with
  | JUndefined | JNull => false
  | JBool b => b
  | JNum n => negb (num_eqb n (Fin 0 0) || Number_isNaN n)
  | JStr s => negb (String.eqb s "")
  | JArr _ | JObj _ => true
  end.

(** [a || b] and [a ?? b] on values *)
Definition js_or (a b : jsvalue) : jsvalue := if truthy a then a else b.
Definition js_coalesce (a b : jsvalue) : jsvalue := if nullish a then b else a.

(** [ToString].  An array is joined with commas, [null] and [undefined]
    elements giving the empty string; a plain object gives
    ["[object Object]"]. *)
Fixpoint ToString (v : jsvalue) : string :=
  match v with
  | JUndefined => "undefined"
  | JNull => "null"
  | JBool true => "true"
  | JBool false => "false"
  | JNum n => number_to_string n
  | JStr s => s
  | JArr l =>
      join "," (map (fun e => if nullish e then "" else ToString e) l)
  | JObj _ => "[object Object]"
  end.

(** [ToPrimitive]: arrays and objects of this program have the default
    [valueOf] and [toString], so they convert to their string. *)
Definition ToPrimitive (v : jsvalue) : jsvalue :=
  match v with
  | JArr _ | JObj _ => JStr (ToString v)
  | _ => v
  end.

(** [ToNumber], which is what [Number(v)] computes. *)
Definition ToNumber (v : jsvalue) : number :=
  match ToPrimitive v with
  | JUndefined => NaN
  | JNull => Fin 0 0
  | JBool true => Fin 1 0
  | JBool false => Fin 0 0
  | JNum n => n
  | JStr s => StringToNumber s
  | _ => NaN
  end.

(** [a === b].  Two arrays or two objects are equal only when they are
    the same reference, which a request value and a stored value, or two
    request values, never are. *)
Definition strict_eq (a b : jsvalue) : bool :=
  match a, b with
  | JUndefined, JUndefined => true
  | JNull, JNull => true
  | JBool x, JBool y => Bool.eqb x y
  | JNum x, JNum y => num_eqb x y
  | JStr x, JStr y => String.eqb x y
  | _, _ => false
  end.

(** [a < b] and [a > b]: strings compare by code unit, everything else
    numerically, and a comparison involving [NaN] is false. *)
Definition js_lt (a b : jsvalue) : bool :=
  match ToPrimitive a, ToPrimitive b with
  | JStr x, JStr y => String.ltb x y
  | x, y => num_ltb (ToNumber x) (ToNumber y)
  end.

Definition js_gt (a b : jsvalue) : bool := js_lt b a.

(** [a + b]: concatenation as soon as one operand is a string. *)
Definition js_add (a b : jsvalue) : jsvalue :=
  match ToPrimitive a, ToPrimitive b with
  | JStr x, y => JStr (x ++ ToString y)
  | x, JStr y => JStr (ToString x ++ y)
  | x, y => JNum (num_add (ToNumber x) (ToNumber y))
  end.

(** *** Objects as property lists *)

Fixpoint lookup (k : string) (o : object) : option jsvalue :=
  match o with
  | [] => None
  | (k', v) :: o' => if String.eqb k k' then Some v else lookup k o'
  end.

(** [k in o] *)
Definition has (k : string) (o : object) : bool :=
  match lookup k o with Some _ => true | None => false end.

(** [o[k]] *)
Definition get (k : string) (o : object) : jsvalue :=
  match lookup k o with Some v => v | None => JUndefined end.

(** [o[k] = v] *)
Fixpoint set (k : string) (v : jsvalue) (o : object) : object :=
  match o with
  | [] => [(k, v)]
  | (k', v') :: o' =>
      if String.eqb k k' then (k, v) :: o' else (k', v') :: set k v o'
  end.

(** *** Results of code that may throw *)

Inductive details : Type :=
| NoDetails
| Problems (problems : list string)
| Expected (expected : jsvalue).

(** The [error] member of what [err(message, code, details)] builds. *)
Record error : Type := mkError {
  code : string;
  message : string;
  error_details : details
}.

(** What the program throws: its own [{ code, payload }] objects, and the
    [TypeError] of the engine. *)
Inductive exn : Type :=
| Http (status : nat) (payload : error)
| TypeError.

Inductive result (A : Type) : Type :=
| Ok (a : A)
| Throw (e : exn).

Arguments Ok {A} a.
Arguments Throw {A} e.

Definition bind {A B : Type} (r : result A) (f : A -> result B) : result B :=
  match r with
  | Ok a => f a
  | Throw e => Throw e
  end.

Notation "x <- c1 ;; c2" := (bind c1 (fun x => c2))
  (at level 61, c1 at next level, right associativity).

Definition err (message code : string) (d : details) : error :=
  mkError code message d.

(** [k in v] and [v[k]] for the property names this program uses, none of
    which is an array index or ["length"]: only an object can have them,
    [in] throws on a primitive and a property read throws on [null] and
    [undefined]. *)
Definition js_in (k : string) (v : jsvalue) : result bool :=
  match v with
  | JObj o => Ok (has k o)
  | JArr _ => Ok false
  | _ => Throw TypeError
  end.

Definition js_get (k : string) (v : jsvalue) : result jsvalue :=
  match v with
  | JObj o => Ok (get k o)
  | JUndefined | JNull => Throw TypeError
  | _ => Ok JUndefined
  end.

(* ------------------------------------------------------------------ *)
(** ** Records and the store *)
(* ------------------------------------------------------------------ *)

(** A book object.  A property the object lacks is [JUndefined]. *)
Record book : Type := mkBook {
  id : jsvalue;
  title : jsvalue;
  author : jsvalue;
  year : jsvalue;
  rating : jsvalue;
  tags : jsvalue;
  createdAt : jsvalue;
  updatedAt : jsvalue;
  version : jsvalue
}.

(** [b[k]] for a book *)
Definition book_get (k : string) (b : book) : jsvalue :=
  if String.eqb k "id" then id b
  else if String.eqb k "title" then title b
  else if String.eqb k "author" then author b
  else if String.eqb k "year" then year b
  else if String.eqb k "rating" then rating b
  else if String.eqb k "tags" then tags b
  else if String.eqb k "createdAt" then createdAt b
  else if String.eqb k "updatedAt" then updatedAt b
  else if String.eqb k "version" then version b
  else JUndefined.

(** [b[k] = v] for a book; [k] is always one of the nine properties. *)
Definition book_set (k : string) (v : jsvalue) (b : book) : book :=
  let 'mkBook i t a y r g c u n := b in
  if String.eqb k "id" then mkBook v t a y r g c u n
  else if String.eqb k "title" then mkBook i v a y r g c u n
  else if String.eqb k "author" then mkBook i t v y r g c u n
  else if String.eqb k "year" then mkBook i t a v r g c u n
  else if String.eqb k "rating" then mkBook i t a y v g c u n
  else if String.eqb k "tags" then mkBook i t a y r v c u n
  else if String.eqb k "createdAt" then mkBook i t a y r g v u n
  else if String.eqb k "updatedAt" then mkBook i t a y r g c v n
  else if String.eqb k "version" then mkBook i t a y r g c u v
  else b.

(** [Object.assign(b, o)]: the properties of [o] are written to [b] one
    after the other. *)
Definition Object_assign (b : book) (o : object) : book :=
  fold_left (fun acc kv => book_set (fst kv) (snd kv) acc) o b.

(** The global [db] and the contents of the file at [DATA_PATH]. *)
Record state : Type := mkState {
  books : list book;
  data_file : list book
}.

(** [persist()]: the whole collection replaces the file. *)
Definition persist (s : state) : state :=
  mkState (books s) (books s).

(** What the operations read from their environment: the clock and, in
    [createBook], the hexadecimal rendering of three random bytes. *)
Record env : Type := mkEnv {
  nowISO : string;
  randomHex : string
}.

(* ------------------------------------------------------------------ *)
(** ** Business logic *)
(* ------------------------------------------------------------------ *)

Definition findBook (i : jsvalue) (l : list book) : option book :=
  find (fun b => strict_eq (id b) i) l.

Definition fields : list string :=
  ["id"; "title"; "author"; "year"; "rating"; "tags"; "version"].

(** [if (k in input) out[k] = input[k]] *)
Definition copy_field (input : jsvalue) (acc : result object) (k : string)
  : result object :=
  out <- acc ;;
  present <- js_in k input ;;
  if present then v <- js_get k input ;; Ok (set k v out) else Ok out.

Record validation : Type := mkValidation {
  ok : bool;
  value : object;
  problems : list string
}.

Definition check_title (partial : bool) (st : object * list string)
  : object * list string :=
  let (out, problems) := st in
  if negb partial then
    if (negb (truthy (get "title" out)) || negb (is_string (get "title" out)))%bool
    then (out, problems ++ ["title is required (string)"])%list
    else st
  else st.

Definition check_year (st : object * list string) : object * list string :=
  let (out, problems) := st in
  if (has "year" out && negb (nullish (get "year" out)))%bool then
    let n := ToNumber (get "year" out) in
    if (negb (Number_isInteger n) || num_ltb n (Fin 0 0)
        || num_gtb n (Fin 3000 0))%bool
    then (out, problems ++ ["year must be integer 0..3000"])%list
    else (set "year" (JNum n) out, problems)
  else st.

Definition check_rating (st : object * list string) : object * list string :=
  let (out, problems) := st in
  if (has "rating" out && negb (nullish (get "rating" out)))%bool then
    let n := ToNumber (get "rating" out) in
    if (Number_isNaN n || num_ltb n (Fin 0 0) || num_gtb n (Fin 5 0))%bool
    then (out, problems ++ ["rating must be 0..5"])%list
    else (set "rating"
            (JNum (num_div10 (Math_round (num_mul n (Fin 10 0))))) out,
          problems)
  else st.

Definition check_tags (st : object * list string) : object * list string :=
  let (out, problems) := st in
  if (has "tags" out && negb (nullish (get "tags" out)))%bool then
    match get "tags" out with
    | JArr l =>
        (set "tags" (JArr (firstn 20 (map (fun t => JStr (ToString t)) l))) out,
         problems)
    | _ => (out, problems ++ ["tags must be an array of strings"])%list
    end
  else st.

Definition validateBook (input : jsvalue) (partial : bool) : result validation :=
  out <- fold_left (copy_field input) fields (Ok []) ;;
  let (out', problems) :=
    check_tags (check_rating (check_year (check_title partial (out, [])))) in
  Ok (mkValidation (Nat.eqb (List.length problems) 0) out' problems).

Definition createBook (e : env) (input : jsvalue) (s : state)
  : result book * state :=
  match validateBook input false with
  | Throw x => (Throw x, s)
  | Ok (mkValidation valid value problems) =>
      if negb valid then
        (Throw (Http 400 (err "Validation failed" "VALIDATION" (Problems problems))), s)
      else if (truthy (get "id" value)
               && match findBook (get "id" value) (books s) with
                  | Some _ => true
                  | None => false
                  end)%bool then
        (Throw (Http 409 (err "ID already exists" "CONFLICT" NoDetails)), s)
      else
        let id := js_or (get "id" value) (JStr ("b" ++ randomHex e)) in
        let now := JStr (nowISO e) in
        let book :=
          mkBook id (get "title" value)
                 (js_or (get "author" value) (JStr "Unknown"))
                 (js_coalesce (get "year" value) JNull)
                 (js_coalesce (get "rating" value) JNull)
                 (js_or (get "tags" value) (JArr []))
                 now now (JNum (Fin 1 0)) in
        (Ok book, persist (mkState (books s ++ [book])%list (data_file s)))
  end.

(** The book [findBook] returned is mutated in place: in the list, the
    first book with the requested id is the one that changes. *)
Fixpoint replace_first (i : jsvalue) (b' : book) (l : list book) : list book :=
  match l with
  | [] => []
  | b :: l' => if strict_eq (id b) i then b' :: l' else b :: replace_first i b' l'
  end.

Definition set_updatedAt (v : jsvalue) (b : book) : book :=
  book_set "updatedAt" v b.

Definition set_version (v : jsvalue) (b : book) : book :=
  book_set "version" v b.

Definition updateBook (e : env) (i : string) (patch : jsvalue) (s : state)
  : result book * state :=
  match findBook (JStr i) (books s) with
  | None => (Throw (Http 404 (err "Book not found" "NOT_FOUND" NoDetails)), s)
  | Some b =>
      match js_get "version" patch with
      | Throw x => (Throw x, s)
      | Ok pv =>
          if (negb (nullish pv)
              && negb (strict_eq (JNum (ToNumber pv)) (version b)))%bool then
            (Throw (Http 409 (err "Version conflict" "VERSION_CONFLICT"
                                  (Expected (version b)))), s)
          else
            match validateBook patch true with
            | Throw x => (Throw x, s)
            | Ok (mkValidation valid value problems) =>
                if negb valid then
                  (Throw (Http 400 (err "Validation failed" "VALIDATION"
                                        (Problems problems))), s)
                else
                  let b1 := Object_assign b value in
                  let b2 := set_updatedAt (JStr (nowISO e)) b1 in
                  let b3 := set_version (js_add (version b2) (JNum (Fin 1 0))) b2 in
                  (Ok b3,
                   persist (mkState (replace_first (JStr i) b3 (books s))
                                    (data_file s)))
            end
      end
  end.

(** [db.books.splice(i, 1)] at the index [findIndex] returned *)
Fixpoint remove_first (i : jsvalue) (l : list book) : list book :=
  match l with
  | [] => []
  | b :: l' => if strict_eq (id b) i then l' else b :: remove_first i l'
  end.

Definition deleteBook (i : string) (s : state) : result book * state :=
  match findBook (JStr i) (books s) with
  | None => (Throw (Http 404 (err "Book not found" "NOT_FOUND" NoDetails)), s)
  | Some removed =>
      (Ok removed,
       persist (mkState (remove_first (JStr i) (books s)) (data_file s)))
  end.

(* ------------------------------------------------------------------ *)
(** ** Query helpers *)
(* ------------------------------------------------------------------ *)

(** [url.searchParams]: the query string as name/value pairs. *)
Definition searchParams : Type := list (string * string).

(** [url.searchParams.get(name)]: the first value, [None] for [null]. *)
Fixpoint sp_get (name : string) (url : searchParams) : option string :=
  match url with
  | [] => None
  | (k, v) :: url' => if String.eqb name k then Some v else sp_get name url'
  end.

(** [url.searchParams.get(name) || dflt] for a string default *)
Definition param_or (name dflt : string) (url : searchParams) : string :=
  match sp_get name url with
  | Some s => if String.eqb s "" then dflt else s
  | None => dflt
  end.

(** [Number(url.searchParams.get(name) || dflt)] for a numeric default *)
Definition num_param_or (name : string) (dflt : number) (url : searchParams)
  : number :=
  match sp_get name url with
  | Some s => if String.eqb s "" then dflt else StringToNumber s
  | None => dflt
  end.

Record meta : Type := mkMeta {
  total : nat;
  limit : number;
  offset : number;
  sort : string;
  dir : string;
  q : string
}.

(** [(v || '').toLowerCase()]: a truthy value that is not a string has no
    [toLowerCase] method, and calling it throws. *)
Definition lowered (v : jsvalue) : result string :=
  match js_or v (JStr "") with
  | JStr s => Ok (toLowerCase s)
  | _ => Throw TypeError
  end.

(** [(Array.isArray(b.tags) ? b.tags.join(',') : '').toLowerCase()] *)
Definition tags_text (b : book) : string :=
  toLowerCase (if Array_isArray (tags b) then ToString (tags b) else "").

(** The predicate given to [filter]; [||] stops at the first match. *)
Definition matches (q : string) (b : book) : result bool :=
  t <- lowered (title b) ;;
  if includes t q then Ok true else
  a <- lowered (author b) ;;
  if includes a q then Ok true else
  i <- lowered (id b) ;;
  if includes i q then Ok true else
  Ok (includes (tags_text b) q).

(** [Array.prototype.filter] with a predicate that may throw *)
Fixpoint Array_filter (f : book -> result bool) (l : list book)
  : result (list book) :=
  match l with
  | [] => Ok []
  | b :: l' =>
      keep <- f b ;;
      rest <- Array_filter f l' ;;
      Ok (if keep then b :: rest else rest)
  end.

Definition sortable : list string :=
  ["id"; "title"; "author"; "year"; "rating"; "createdAt"; "updatedAt"].

(** The comparison function given to [sort] *)
Definition compare_by (s : string) (dir : Z) (a b : book) : Z :=
  let av := js_coalesce (book_get s a) (JStr "") in
  let bv := js_coalesce (book_get s b) (JStr "") in
  if js_gt av bv then dir else if js_lt av bv then - dir else 0.

(** [Array.prototype.sort] is a stable sort.  It is modelled by the stable
    insertion sort: each element goes after the elements that are not
    greater than it. *)
Fixpoint insert_sorted (cmp : book -> book -> Z) (x : book) (l : list book)
  : list book :=
  match l with
  | [] => [x]
  | y :: l' => if cmp x y <? 0 then x :: l else y :: insert_sorted cmp x l'
  end.

Definition Array_sort (cmp : book -> book -> Z) (l : list book) : list book :=
  fold_left (fun acc x => insert_sorted cmp x acc) l [].

(** A relative index of [slice], brought into [0, len]. *)
Definition clamp_index (len : nat) (i : int_or_inf) : nat :=
  match i with
  | INegInf => 0%nat
  | IPosInf => len
  | IInt z =>
      if z <? 0 then Z.to_nat (Z.max (Z.of_nat len + z) 0)
      else Z.to_nat (Z.min z (Z.of_nat len))
  end.

(** [l.slice(start, end)] *)
Definition Array_slice {A : Type} (l : list A) (start stop : number) : list A :=
  let len := List.length l in
  let k := clamp_index len (ToIntegerOrInfinity start) in
  let final := clamp_index len (ToIntegerOrInfinity stop) in
  firstn (final - k) (skipn k l).

Definition applyQuery (list : Datatypes.list book) (url : searchParams)
  : result (Datatypes.list book * meta) :=
  let q := toLowerCase (param_or "q" "" url) in
  let sort := param_or "sort" "title" url in
  let dir : Z :=
    if String.eqb (toLowerCase (param_or "dir" "asc" url)) "desc" then -1 else 1 in
  let limit :=
    Math_min (Math_max (num_param_or "limit" (Fin 20 0) url) (Fin 1 0)) (Fin 100 0) in
  let offset := Math_max (num_param_or "offset" (Fin 0 0) url) (Fin 0 0) in
  out <- (if negb (String.eqb q "") then Array_filter (matches q) list
          else Ok list) ;;
  let s := if existsb (String.eqb sort) sortable then sort else "title" in
  let out := Array_sort (compare_by s dir) out in
  let total := List.length out in
  let out := Array_slice out offset (num_add offset limit) in
  Ok (out, mkMeta total limit offset s (if dir =? 1 then "asc" else "desc") q).

(* ------------------------------------------------------------------ *)
(** ** The [/api/books/bulk] route *)
(* ------------------------------------------------------------------ *)

(** An element of [added]: a created book, or [{ error, input }]. *)
Inductive bulk_item : Type :=
| Added (b : book)
| Rejected (error : error) (input : jsvalue).

(** What a route sends: [sendJSON(res, status, ok(data, meta))] or
    [sendJSON(res, status, err(...))]. *)
Inductive reply (A : Type) : Type :=
| SendOk (status : nat) (data : A)
| SendErr (status : nat) (e : error).

Arguments SendOk {A} status data.
Arguments SendErr {A} status e.

(** [String(e)] for a caught exception.  The explanation an engine adds
    after the name of a [TypeError] is not modelled. *)
Definition String_of_exn (e : exn) : string :=
  match e with
  | TypeError => "TypeError"
  | Http _ _ => "[object Object]"
  end.

(** [e.payload?.error || { code: 'UNKNOWN', message: String(e) }] *)
Definition caught (e : exn) : error :=
  match e with
  | Http _ p => p
  | TypeError => mkError "UNKNOWN" (String_of_exn e) NoDetails
  end.

(** The [for (const raw of items)] loop; the [n]-th item is created in the
    environment [envs n]. *)
Fixpoint bulk_loop (envs : nat -> env) (n : nat) (items : list jsvalue)
  (s : state) : list bulk_item * state :=
  match items with
  | [] => ([], s)
  | raw :: rest =>
      let (r, s1) := createBook (envs n) raw s in
      let entry :=
        match r with
        | Ok b => Added b
        | Throw e => Rejected (caught e) raw
        end in
      let (added, s2) := bulk_loop envs (S n) rest s1 in
      (entry :: added, s2)
  end.

(** [const { k = dflt } = body] *)
Definition destructure (k : string) (dflt : jsvalue) (body : jsvalue)
  : result jsvalue :=
  v <- js_get k body ;;
  Ok (match v with JUndefined => dflt | _ => v end).

(** The route handler, applied to the parsed request body.  The reply
    carries [added] and the [mode] echoed in the meta. *)
Definition bulk_route (envs : nat -> env) (body : jsvalue) (s : state)
  : reply (list bulk_item * jsvalue) * state :=
  match destructure "items" (JArr []) body, destructure "mode" (JStr "append") body with
  | Ok items, Ok mode =>
      match items with
      | JArr l =>
          let s0 := if strict_eq mode (JStr "replace")
                    then mkState [] (data_file s) else s in
          let (added, s') := bulk_loop envs 0 l s0 in
          (SendOk 200 (added, mode), s')
      | _ => (SendErr 400 (err "items must be an array" "VALIDATION" NoDetails), s)
      end
  | _, _ => (SendErr 500 (err "Internal server error" "INTERNAL" NoDetails), s)
  end.

(* ------------------------------------------------------------------ *)
(** ** Sequences of mutations *)
(* ------------------------------------------------------------------ *)

Inductive op : Type :=
| Create (e : env) (input : jsvalue)
| Update (e : env) (i : string) (patch : jsvalue)
| Delete (i : string).

Definition step (s : state) (o : op) : state :=
  match o with
  | Create e input => snd (createBook e input s)
  | Update e i patch => snd (updateBook e i patch s)
  | Delete i => snd (deleteBook i s)
  end.

Definition run (ops : list op) (s : state) : state := fold_left step ops s.

(* ------------------------------------------------------------------ *)
(** ** The seed collection *)
(* ------------------------------------------------------------------ *)

(** The collection [ensureDataFile] writes when there is no data file;
    [now] stands for the results of its calls of [nowISO()]. *)
Definition seed (now : string) : list book :=
  [ mkBook (JStr "b1") (JStr "Clean Architecture") (JStr "Robert C. Martin")
           (JNum (Fin 2017 0)) (JNum (Fin 46 1)) (JArr [JStr "architecture"])
           (JStr now) (JStr now) (JNum (Fin 1 0));
    mkBook (JStr "b2") (JStr "Designing Data-Intensive Applications")
           (JStr "Martin Kleppmann")
           (JNum (Fin 2017 0)) (JNum (Fin 48 1)) (JArr [JStr "data"; JStr "systems"])
           (JStr now) (JStr now) (JNum (Fin 1 0));
    mkBook (JStr "b3") (JStr "You Don't Know JS Yet") (JStr "Kyle Simpson")
           (JNum (Fin 2020 0)) (JNum (Fin 45 1)) (JArr [JStr "javascript"])
           (JStr now) (JStr now) (JNum (Fin 1 0)) ].

(** The state once the module is loaded on a machine without data file:
    the seed, in memory and on disk. *)
Definition initial (now : string) : state := persist (mkState (seed now) []).

(* ------------------------------------------------------------------ *)
(** ** Vocabulary of the properties *)
(* ------------------------------------------------------------------ *)

(** The nine properties of a book *)
Definition book_keys : list string :=
  ["id"; "title"; "author"; "year"; "rating"; "tags";
   "createdAt"; "updatedAt"; "version"].

(** The properties an input offers to the validator: those of an object,
    none for an array; anything else makes [in] throw. *)
Definition props_of (input : jsvalue) : option object :=
  match input with
  | JObj o => Some o
  | JArr _ => Some []
  | _ => None
  end.

(** What every step of the validator preserves: the property names stay
    distinct, only [year], [rating] and [tags] are rewritten, and a
    problem once recorded stays recorded. *)
Definition normalizing (f : object * list string -> object * list string) : Prop :=
  forall st,
    (NoDup (map fst (fst st)) -> NoDup (map fst (fst (f st))))
    /\ (forall k, ~ In k ["year"; "rating"; "tags"] ->
                  lookup k (fst (f st)) = lookup k (fst st))
    /\ (snd (f st) = [] -> snd st = []).

(** A non-empty string *)
Definition nonempty_string (v : jsvalue) : Prop :=
  exists t, v = JStr t /\ t <> "".

(** The value of the property [k] once the patch [o] is applied. *)
Definition patched (k : string) (o : object) (old : jsvalue) : jsvalue :=
  match lookup k o with Some v => v | None => old end.


(** The entry of [added] for an item and the outcome of its creation. *)
Definition outcome (raw : jsvalue) (r : result book) : bulk_item :=
  match r with
  | Ok b => Added b
  | Throw x => Rejected (caught x) raw
  end.

(** The state in which the item of index [n] is created: the items before
    it have been given to [createBook] one after the other, the item of
    index [j] in the environment [envs (k + j)]. *)
Fixpoint state_before (envs : nat -> env) (k : nat) (items : list jsvalue)
  (s : state) (n : nat) : state :=
  match n, items with
  | S n', raw :: rest =>
      state_before envs (S k) rest (snd (createBook (envs k) raw s)) n'
  | _, _ => s
  end.

(** Every record of the collection has a non-empty string as title. *)
Definition titled (s : state) : Prop :=
  Forall (fun b => nonempty_string (title b)) (books s).


(** The text a value offers to the search: the string itself; a value
    that is not a string offers nothing. *)
Definition text (v : jsvalue) : string :=
  match v with JStr s => s | _ => "" end.

(** [q] occurs in the lowered title, author, id or joined tags of [b]. *)
Definition matchesb (q : string) (b : book) : bool :=
  (includes (toLowerCase (text (title b))) q
   || includes (toLowerCase (text (author b))) q
   || includes (toLowerCase (text (id b))) q
   || includes (tags_text b) q)%bool.

(** A value the search can lower: a string, or a falsy value. *)
Definition lowerable (v : jsvalue) : Prop :=
  truthy v = false \/ is_string v = true.

(** A record whose title, author and id the search can lower. *)
Definition searchable (b : book) : Prop :=
  lowerable (title b) /\ lowerable (author b) /\ lowerable (id b).

(** The direction a meta names, as the sign given to the comparison. *)
Definition dir_sign (d : string) : Z := if String.eqb d "desc" then -1 else 1.

(** The filter step of [applyQuery]. *)
Definition filtered (q : string) (l : list book) : result (list book) :=
  if negb (String.eqb q "") then Array_filter (matches q) l else Ok l.

(** A mutation that cannot introduce a second record with an id in use:
    a creation whose input names its id, a non-empty string; an update
    whose patch has no [id]; a deletion. *)
Definition keeps_ids_apart (o : op) : Prop :=
  match o with
  | Create _ input =>
      exists v, js_get "id" input = Ok (JStr v) /\ v <> ""
  | Update _ _ patch => js_in "id" patch = Ok false
  | Delete _ => True
  end.

(** [x <= y] *)
Definition num_leb (x y : number) : bool :=
  match num_compare x y with
  | Some Lt | Some Eq => true
  | _ => false
  end.

(** A parameter that is absent, empty, or a numeric string. *)
Definition numeric (p : option string) : Prop :=
  match p with
  | Some s => s = "" \/ StringToNumber s <> NaN
  | None => True
  end.

(** The sequence the pages are cut from: filtered, then sorted. *)
Definition sorted_view (l : list book) (url : searchParams)
  : result (list book) :=
  out <- filtered (toLowerCase (param_or "q" "" url)) l ;;
  let sort := param_or "sort" "title" url in
  let dir : Z :=
    if String.eqb (toLowerCase (param_or "dir" "asc" url)) "desc" then -1 else 1 in
  let s := if existsb (String.eqb sort) sortable then sort else "title" in
  Ok (Array_sort (compare_by s dir) out).

(** The page [applyQuery] returns when the offset [o] is put in front of
    the query string; nothing when the query throws. *)
Definition page_at (l : list book) (url : searchParams) (o : string)
  : list book :=
  match applyQuery l (("offset", o) :: url) with
  | Ok (page, _) => page
  | Throw _ => []
  end.

(* ------------------------------------------------------------------ *)
(** ** The mutation routes *)
(* ------------------------------------------------------------------ *)





(** The status of a reply *)
Definition status_of {A : Type} (r : reply A) : nat :=
  match r with
  | SendOk status _ => status
  | SendErr status _ => status
  end.

(* ------------------------------------------------------------------ *)
(** ** Loading the data file *)
(* ------------------------------------------------------------------ *)

(** [Number.isInteger(v)]: false of everything that is not a number. *)
Definition isInteger_value (v : jsvalue) : bool :=
  match v with
  | JNum n => Number_isInteger n
  | _ => false
  end.

(** The body of the loop of [migrateDb]: the four backfills of one book,
    with the flag that tells whether one of them applied.  [now] is the
    result of [nowISO()], called only when [createdAt] is missing. *)
Definition migrate_book (now : string) (b : book) : book * bool :=
  let s1 := if Array_isArray (tags b) then (b, false)
            else (book_set "tags" (JArr []) b, true) in
  let s2 := if truthy (createdAt (fst s1)) then s1
            else (book_set "createdAt" (JStr now) (fst s1), true) in
  let s3 := if truthy (updatedAt (fst s2)) then s2
            else (book_set "updatedAt" (createdAt (fst s2)) (fst s2), true) in
  if isInteger_value (version (fst s3)) then s3
  else (book_set "version" (JNum (Fin 1 0)) (fst s3), true).

(** [migrateDb(dbObj)]: the books after the loop, and [changed].  The
    book of index [k + j] reads the clock as [clock (k + j)]. *)
Fixpoint migrateDb (clock : nat -> string) (k : nat) (l : list book)
  : list book * bool :=
  match l with
  | [] => ([], false)
  | b :: rest =>
      let (b', c) := migrate_book (clock k) b in
      let (rest', c') := migrateDb clock (S k) rest in
      (b' :: rest', (c || c')%bool)
  end.

(** [ensureDataFile()]: the collection in memory and the contents of the
    file, from the books of the file when there is one. *)
Definition ensureDataFile (now : string) (file : option (list book))
  : list book * list book :=
  match file with
  | None => (seed now, seed now)
  | Some l => (l, l)
  end.

(** The three statements the module runs when it is loaded:
    [let db = ensureDataFile(); migrateDb(db); persist();] *)
Definition startup (now : string) (clock : nat -> string)
  (file : option (list book)) : state :=
  let (db, on_disk) := ensureDataFile now file in
  persist (mkState (fst (migrateDb clock 0 db)) on_disk).

(* ------------------------------------------------------------------ *)
(** ** Rate limiting *)
(* ------------------------------------------------------------------ *)

Definition HORIZON : Z := 5 * 60 * 1000.
Definition LIMIT : Z := 100.

(** [ipHits]: the [Map] from addresses to the times of their requests. *)
Definition hits : Type := list (string * list Z).

(** [ipHits.get(ip)] *)
Fixpoint hits_get (ip : string) (m : hits) : option (list Z) :=
  match m with
  | [] => None
  | (k, arr) :: m' => if String.eqb ip k then Some arr else hits_get ip m'
  end.

(** [ipHits.set(ip, arr)] *)
Fixpoint hits_set (ip : string) (arr : list Z) (m : hits) : hits :=
  match m with
  | [] => [(ip, arr)]
  | (k, old) :: m' =>
      if String.eqb ip k then (ip, arr) :: m' else (k, old) :: hits_set ip arr m'
  end.

(** [while (arr.length && now - arr[0] > HORIZON) arr.shift();] *)
Fixpoint shift_old (now : Z) (arr : list Z) : list Z :=
  match arr with
  | t :: rest => if now - t >? HORIZON then shift_old now rest else arr
  | [] => []
  end.

(** [rateLimited(ip)], with [now] the result of [Date.now()]: the verdict
    and the map after the call. *)
Definition rateLimited (now : Z) (ip : string) (m : hits) : bool * hits :=
  let arr := match hits_get ip m with Some a => a | None => [] end in
  let arr := (shift_old now arr ++ [now])%list in
  (Z.of_nat (List.length arr) >? LIMIT, hits_set ip arr m).

(** The map after a sequence of requests, each a time and an address. *)
Definition serve (reqs : list (Z * string)) (m : hits) : hits :=
  fold_left (fun m r => snd (rateLimited (fst r) (snd r) m)) reqs m.

(* ------------------------------------------------------------------ *)
(** ** Well-formed fields *)
(* ------------------------------------------------------------------ *)

(** [null], [undefined], or an integer of [0, 3000]. *)
Definition year_ok (v : jsvalue) : Prop :=
  nullish v = true
  \/ exists n, v = JNum n
               /\ Number_isInteger n = true
               /\ num_leb (Fin 0 0) n = true
               /\ num_leb n (Fin 3000 0) = true.

(** [null], [undefined], or a number of [0, 5] with at most one decimal. *)
Definition rating_ok (v : jsvalue) : Prop :=
  nullish v = true
  \/ exists n, v = JNum n
               /\ num_leb (Fin 0 0) n = true
               /\ num_leb n (Fin 5 0) = true
               /\ Number_isInteger (num_mul n (Fin 10 0)) = true.

(** [null], [undefined], or an array of at most 20 strings. *)
Definition tags_ok (v : jsvalue) : Prop :=
  nullish v = true
  \/ exists l, v = JArr l
               /\ (List.length l <= 20)%nat
               /\ Forall (fun t => is_string t = true) l.

(** A record whose year, rating and tags are well formed and whose
    timestamps are strings. *)
Definition well_formed (b : book) : Prop :=
  year_ok (year b) /\ rating_ok (rating b) /\ tags_ok (tags b)
  /\ is_string (createdAt b) = true /\ is_string (updatedAt b) = true.

(** A record [migrateDb] has nothing to add to. *)
Definition migrated (b : book) : Prop :=
  Array_isArray (tags b) = true
  /\ truthy (createdAt b) = true
  /\ truthy (updatedAt b) = true
  /\ isInteger_value (version b) = true.

(** The request at time [t] still counts at time [now]. *)
Definition recent (now t : Z) : bool := now - t <=? HORIZON.

(** The times of the requests of [reqs] that came from [ip]. *)
Definition times_of (ip : string) (reqs : list (Z * string)) : list Z :=
  map fst (filter (fun r => String.eqb (snd r) ip) reqs).

(** The times stored for [ip], none when the map has no entry. *)
Definition stored (ip : string) (m : hits) : list Z :=
  match hits_get ip m with Some a => a | None => [] end.

(** The property [k] of an object, when it has it, satisfies [P]. *)
Definition when_present (k : string) (P : jsvalue -> Prop) (o : object) : Prop :=
  forall v, lookup k o = Some v -> P v.

(** The value [applyQuery] sorts a record by: [b[s] ?? '']. *)
Definition sort_value (s : string) (b : book) : jsvalue :=
  js_coalesce (book_get s b) (JStr "").

(** A sort value that compares as a number: a number other than [NaN], or
    the empty string that stands for a missing value. *)
Definition is_ordinal (v : jsvalue) : bool :=
  match v with
  | JNum n => negb (Number_isNaN n)
  | JStr s => String.eqb s ""
  | _ => false
  end.

(** The sort values of the records of [l] are all strings, or all
    numbers. *)
Definition comparable_keys (s : string) (l : list book) : Prop :=
  (forall b, In b l -> is_string (sort_value s b) = true)
  \/ (forall b, In b l -> is_ordinal (sort_value s b) = true).

(** [a] may stand before [b] in a view sorted by [s] in direction [d]:
    [<] does not put the value of [b] before that of [a] when ascending,
    nor after it when descending. *)
Definition in_order (s d : string) (a b : book) : Prop :=
  if String.eqb d "desc"
  then js_lt (sort_value s a) (sort_value s b) = false
  else js_lt (sort_value s b) (sort_value s a) = false.

(** The records among the entries of a bulk reply: those of the items
    that were created, in order. *)
Fixpoint accepted (l : list bulk_item) : list book :=
  match l with
  | [] => []
  | Added b :: r => b :: accepted r
  | Rejected _ _ :: r => accepted r
  end.



(* ================================================================== *)
(** * Properties *)
(* ================================================================== *)

(** ** Property lists *)

Lemma lookup_set_eq (k : string) (v : jsvalue) (o : object) :
  lookup k (set k v o) = Some v.
Proof.
  induction o as [| [k' v'] o IH]; simpl.
  - now rewrite String.eqb_refl.
  - destruct (String.eqb k k') eqn:E; simpl.
    + now rewrite String.eqb_refl.
    + now rewrite E.
Qed.

Lemma lookup_set_ne (k k' : string) (v : jsvalue) (o : object) :
  k <> k' -> lookup k (set k' v o) = lookup k o.
Proof.
  intros N. induction o as [| [k0 v0] o IH]; simpl.
  - apply String.eqb_neq in N. now rewrite N.
  - destruct (String.eqb_spec k' k0) as [-> | N0]; simpl.
    + apply String.eqb_neq in N. now rewrite N.
    + destruct (String.eqb k k0); [reflexivity | exact IH].
Qed.

Lemma lookup_None_keys (k : string) (o : object) :
  lookup k o = None <-> ~ In k (map fst o).
Proof.
  induction o as [| [k' v'] o IH]; simpl.
  - tauto.
  - destruct (String.eqb_spec k k') as [-> | N].
    + split; [discriminate | intros H; exfalso; apply H; now left].
    + rewrite IH. split.
      * intros H [E | I]; [now apply N | now apply H].
      * intros H I. apply H. now right.
Qed.

Lemma set_keys (k : string) (v : jsvalue) (o : object) :
  map fst (set k v o) = map fst o
  \/ (~ In k (map fst o) /\ map fst (set k v o) = (map fst o ++ [k])%list).
Proof.
  induction o as [| [k' v'] o IH]; simpl.
  - right. split; [tauto | reflexivity].
  - destruct (String.eqb_spec k k') as [-> | N]; simpl.
    + now left.
    + destruct IH as [E | [NI E]].
      * left. now rewrite E.
      * right. split; [| now rewrite E].
        intros [E' | I]; [now apply N | now apply NI].
Qed.

Lemma set_NoDup (k : string) (v : jsvalue) (o : object) :
  NoDup (map fst o) -> NoDup (map fst (set k v o)).
Proof.
  intros ND. destruct (set_keys k v o) as [E | [NI E]]; rewrite E.
  - exact ND.
  - apply NoDup_app; [exact ND | repeat constructor; simpl; tauto |].
    intros x I [<- | []]. exact (NI I).
Qed.

(** ** Reading and writing the properties of a book *)

Ltac case_key k :=
  repeat match goal with
    | |- context [String.eqb k ?c] =>
        destruct (String.eqb_spec k c); [subst k |]
    end.

Lemma book_get_set_eq (k : string) (v : jsvalue) (b : book) :
  In k book_keys -> book_get k (book_set k v b) = v.
Proof.
  intros I. destruct b. simpl in I.
  repeat (destruct I as [<- | I]; [reflexivity |]). destruct I.
Qed.

Lemma book_get_set_ne (k k' : string) (v : jsvalue) (b : book) :
  k <> k' -> book_get k (book_set k' v b) = book_get k b.
Proof.
  intros N. destruct b. unfold book_set.
  case_key k'; try reflexivity;
    unfold book_get; case_key k; try reflexivity; congruence.
Qed.

Lemma Object_assign_get (k : string) (o : object) :
  In k book_keys -> NoDup (map fst o) ->
  forall b, book_get k (Object_assign b o)
            = match lookup k o with Some v => v | None => book_get k b end.
Proof.
  intros I. induction o as [| [k' v'] o IH]; intros ND b.
  - reflexivity.
  - inversion ND as [| ? ? NI ND']; subst.
    change (Object_assign b ((k', v') :: o))
      with (Object_assign (book_set k' v' b) o).
    rewrite (IH ND'). simpl.
    destruct (String.eqb_spec k k') as [-> | N].
    + apply lookup_None_keys in NI. rewrite NI.
      now apply book_get_set_eq.
    + destruct (lookup k o); [reflexivity | now apply book_get_set_ne].
Qed.

(** ** The validator *)

Lemma copy_field_Throw (input : jsvalue) (ks : list string) (x : exn) :
  fold_left (copy_field input) ks (Throw x) = Throw x.
Proof. induction ks; simpl; auto. Qed.

(** On an object the projection on [ks] never throws, and it holds the
    properties of the input whose name is in [ks]. *)
Lemma copy_fields_obj (o : object) (ks : list string) :
  forall acc, exists out,
    fold_left (copy_field (JObj o)) ks (Ok acc) = Ok out
    /\ (NoDup (map fst acc) -> NoDup (map fst out))
    /\ forall k, lookup k out
                 = if existsb (String.eqb k) ks
                   then match lookup k o with
                        | Some v => Some v
                        | None => lookup k acc
                        end
                   else lookup k acc.
Proof.
  induction ks as [| k0 ks IH]; intros acc.
  - exists acc. simpl. auto.
  - simpl. unfold has, get.
    destruct (lookup k0 o) as [v0 |] eqn:L0; simpl.
    + destruct (IH (set k0 v0 acc)) as (out & E & ND & G).
      exists out. split; [exact E | split].
      * intros H. apply ND. now apply set_NoDup.
      * intros k. rewrite G.
        destruct (String.eqb_spec k k0) as [-> | N]; simpl.
        -- rewrite L0, lookup_set_eq. now destruct (existsb _ ks).
        -- now rewrite lookup_set_ne.
    + destruct (IH acc) as (out & E & ND & G).
      exists out. split; [exact E | split; [exact ND |]].
      intros k. rewrite G.
      destruct (String.eqb_spec k k0) as [-> | N]; simpl; [| reflexivity].
      rewrite L0. now destruct (existsb _ ks).
Qed.

Lemma copy_fields_arr (l : list jsvalue) (ks : list string) (acc : object) :
  fold_left (copy_field (JArr l)) ks (Ok acc) = Ok acc.
Proof. induction ks; simpl; auto. Qed.

Lemma existsb_eqb_In (k : string) (ks : list string) :
  existsb (String.eqb k) ks = true <-> In k ks.
Proof.
  rewrite existsb_exists. split.
  - intros (k' & I & E). apply String.eqb_eq in E. now subst.
  - intros I. exists k. split; [exact I | apply String.eqb_refl].
Qed.

Lemma copy_fields_inv (input : jsvalue) (out : object) :
  fold_left (copy_field input) fields (Ok []) = Ok out ->
  exists o, props_of input = Some o
    /\ NoDup (map fst out)
    /\ (forall k, In k fields -> lookup k out = lookup k o)
    /\ (forall k, ~ In k fields -> lookup k out = None).
Proof.
  intros H. destruct input; try discriminate H.
  - rewrite copy_fields_arr in H. inversion H; subst.
    exists []. repeat split; constructor.
  - destruct (copy_fields_obj props fields []) as (out' & E & ND & G).
    assert (X : Ok out' = Ok out) by (rewrite <- E; exact H).
    inversion X; subst.
    exists props. repeat split; [apply ND; constructor | |].
    + intros k I. rewrite G. apply existsb_eqb_In in I. rewrite I.
      now destruct (lookup k props).
    + intros k I. rewrite G.
      destruct (existsb (String.eqb k) fields) eqn:X'; [| reflexivity].
      apply existsb_eqb_In in X'. contradiction.
Qed.

Ltac normalizing_step :=
  repeat split; simpl; auto using set_NoDup;
  try (intros k N; apply lookup_set_ne; intros ->; apply N; simpl; tauto);
  try (intros E; apply app_eq_nil in E; destruct E; discriminate).

Lemma check_title_normalizing (partial : bool) : normalizing (check_title partial).
Proof.
  intros [out ps]. unfold check_title.
  destruct partial; simpl; [auto |].
  destruct (_ || _)%bool; normalizing_step.
Qed.

Lemma check_year_normalizing : normalizing check_year.
Proof.
  intros [out ps]. unfold check_year.
  destruct (_ && _)%bool; [| simpl; auto].
  destruct (_ || _)%bool; normalizing_step.
Qed.

Lemma check_rating_normalizing : normalizing check_rating.
Proof.
  intros [out ps]. unfold check_rating.
  destruct (_ && _)%bool; [| simpl; auto].
  destruct (_ || _)%bool; normalizing_step.
Qed.

Lemma check_tags_normalizing : normalizing check_tags.
Proof.
  intros [out ps]. unfold check_tags.
  destruct (_ && _)%bool; [| simpl; auto].
  destruct (get "tags" out); normalizing_step.
Qed.

Lemma normalizing_compose f g :
  normalizing f -> normalizing g -> normalizing (fun st => g (f st)).
Proof.
  intros F G st. destruct (F st) as (F1 & F2 & F3).
  destruct (G (f st)) as (G1 & G2 & G3).
  repeat split; auto.
  intros k N. now rewrite G2, F2.
Qed.

Lemma checks_normalizing (partial : bool) :
  normalizing
    (fun st => check_tags (check_rating (check_year (check_title partial st)))).
Proof.
  exact (normalizing_compose _ _
           (normalizing_compose _ _
              (normalizing_compose _ _ (check_title_normalizing partial)
                                   check_year_normalizing)
              check_rating_normalizing)
           check_tags_normalizing).
Qed.

Lemma truthy_string (v : jsvalue) :
  truthy v = true -> is_string v = true -> nonempty_string v.
Proof.
  destruct v; simpl; try discriminate. intros T _.
  exists s. split; [reflexivity |]. intros ->. discriminate.
Qed.

(** What a validation that did not throw tells about its input. *)
Lemma validateBook_inv (input : jsvalue) (partial : bool) (r : validation) :
  validateBook input partial = Ok r ->
  exists o, props_of input = Some o
    /\ NoDup (map fst (value r))
    /\ (forall k, In k ["id"; "title"; "author"; "version"] ->
                  lookup k (value r) = lookup k o)
    /\ (forall k, ~ In k fields -> lookup k (value r) = None)
    /\ (ok r = true -> partial = false -> nonempty_string (get "title" (value r))).
Proof.
  unfold validateBook. intros H.
  destruct (fold_left (copy_field input) fields (Ok [])) as [out | x] eqn:E;
    [| discriminate].
  cbn [bind] in H. apply copy_fields_inv in E.
  destruct E as (o & P & ND & G1 & G2).
  destruct (checks_normalizing partial (out, [])) as (N1 & N2 & N3).
  cbn beta in N1, N2, N3.
  destruct (check_tags _) as [out' ps] eqn:C. cbn [fst snd] in N1, N2, N3.
  inversion H; subst; clear H. cbn [value ok].
  assert (F : forall k, In k ["id"; "title"; "author"; "version"] ->
                        In k fields /\ ~ In k ["year"; "rating"; "tags"]).
  { intros k I. unfold fields. split.
    - simpl in I |- *. tauto.
    - intros J. simpl in I, J.
      repeat (destruct I as [<- | I];
              [repeat (destruct J as [J | J]; [discriminate |]); destruct J |]).
      destruct I. }
  exists o. split; [exact P | split; [auto | split; [| split]]].
  - intros k I. destruct (F k I) as [I1 I2]. now rewrite N2, G1.
  - intros k N. rewrite N2; [now apply G2 |].
    intros J. apply N. unfold fields. simpl in J |- *. tauto.
  - intros V ->. destruct ps; [| discriminate]. clear N3.
    destruct (F "title") as [I1 I2]; [simpl; tauto |].
    unfold get. rewrite (N2 _ I2). fold (get "title" out).
    revert C. unfold check_title. cbn [negb].
    destruct (negb (truthy (get "title" out))
              || negb (is_string (get "title" out)))%bool eqn:T.
    + intros C.
      destruct (checks_normalizing true
                  (out, ([] ++ ["title is required (string)"])%list))
        as (_ & _ & M).
      unfold check_title in M. cbn [negb fst snd] in M. rewrite C in M.
      discriminate (M eq_refl).
    + intros _. apply orb_false_elim in T. destruct T as [T1 T2].
      apply negb_false_iff in T1, T2. now apply truthy_string.
Qed.

(** ** Updates, field by field *)

Lemma js_get_props (k : string) (input : jsvalue) (o : object) :
  props_of input = Some o -> js_get k input = Ok (get k o).
Proof.
  destruct input; simpl; try discriminate; intros E; inversion E; reflexivity.
Qed.

Lemma updateBook_Ok_inv (e : env) (i : string) (patch : jsvalue)
  (s s' : state) (b' : book) :
  updateBook e i patch s = (Ok b', s') ->
  exists b r o,
    findBook (JStr i) (books s) = Some b
    /\ props_of patch = Some o
    /\ (nullish (get "version" o) = true
        \/ strict_eq (JNum (ToNumber (get "version" o))) (version b) = true)
    /\ validateBook patch true = Ok r
    /\ ok r = true
    /\ b' = (let b2 := set_updatedAt (JStr (nowISO e)) (Object_assign b (value r)) in
             set_version (js_add (version b2) (JNum (Fin 1 0))) b2)
    /\ s' = persist (mkState (replace_first (JStr i) b' (books s)) (data_file s)).
Proof.
  unfold updateBook. intros H.
  destruct (findBook (JStr i) (books s)) as [b |]; [| inversion H].
  destruct (js_get "version" patch) as [pv | x] eqn:V; [| inversion H].
  destruct (negb (nullish pv)
            && negb (strict_eq (JNum (ToNumber pv)) (version b)))%bool eqn:C;
    [inversion H |].
  destruct (validateBook patch true) as [[valid val ps] | x] eqn:R; [| inversion H].
  destruct valid; [| inversion H]. cbn [negb] in H.
  destruct (validateBook_inv _ _ _ R) as (o & P & _).
  rewrite (js_get_props _ _ _ P) in V. inversion V; subst pv.
  inversion H; subst. exists b, (mkValidation true val ps), o.
  repeat split; auto.
  apply andb_false_iff in C. destruct C as [C | C];
    apply negb_false_iff in C; auto.
Qed.

(** After a successful update, [id], [title], [author] and [version] are
    those of the patch where it has them; [createdAt] is the old one. *)
Lemma updateBook_fields (e : env) (i : string) (patch : jsvalue)
  (s s' : state) (b' : book) :
  updateBook e i patch s = (Ok b', s') ->
  exists b o,
    findBook (JStr i) (books s) = Some b
    /\ props_of patch = Some o
    /\ id b' = patched "id" o (id b)
    /\ title b' = patched "title" o (title b)
    /\ author b' = patched "author" o (author b)
    /\ createdAt b' = createdAt b
    /\ updatedAt b' = JStr (nowISO e)
    /\ version b' = js_add (patched "version" o (version b)) (JNum (Fin 1 0))
    /\ (nullish (get "version" o) = true
        \/ strict_eq (JNum (ToNumber (get "version" o))) (version b) = true)
    /\ s' = persist (mkState (replace_first (JStr i) b' (books s)) (data_file s)).
Proof.
  intros H. apply updateBook_Ok_inv in H.
  destruct H as (b & r & o & F & P & C & R & V & B & S).
  exists b, o. destruct (validateBook_inv _ _ _ R) as (o' & P' & ND & G1 & G2 & _).
  rewrite P in P'. inversion P'; subst o'. clear P'.
  assert (A : forall k, In k book_keys ->
              book_get k (Object_assign b (value r))
              = match lookup k (value r) with Some v => v | None => book_get k b end).
  { intros k I. now apply Object_assign_get. }
  assert (K : forall k, k <> "updatedAt" -> k <> "version" ->
              book_get k b' = book_get k (Object_assign b (value r))).
  { intros k N1 N2. subst b'. cbv zeta. unfold set_version, set_updatedAt.
    now rewrite !book_get_set_ne. }
  repeat split; auto.
  - change (book_get "id" b' = patched "id" o (book_get "id" b)).
    rewrite K by discriminate. rewrite A by (simpl; tauto).
    unfold patched. now rewrite G1 by (simpl; tauto).
  - change (book_get "title" b' = patched "title" o (book_get "title" b)).
    rewrite K by discriminate. rewrite A by (simpl; tauto).
    unfold patched. now rewrite G1 by (simpl; tauto).
  - change (book_get "author" b' = patched "author" o (book_get "author" b)).
    rewrite K by discriminate. rewrite A by (simpl; tauto).
    unfold patched. now rewrite G1 by (simpl; tauto).
  - change (book_get "createdAt" b' = book_get "createdAt" b).
    rewrite K by discriminate. rewrite A by (simpl; tauto).
    rewrite G2; [reflexivity |].
    unfold fields. simpl. intros J.
    repeat (destruct J as [J | J]; [discriminate |]). destruct J.
  - change (book_get "updatedAt" b' = JStr (nowISO e)).
    subst b'. cbv zeta. unfold set_version, set_updatedAt.
    rewrite book_get_set_ne by discriminate.
    apply book_get_set_eq. simpl; tauto.
  - change (book_get "version" b'
            = js_add (patched "version" o (book_get "version" b)) (JNum (Fin 1 0))).
    subst b'. cbv zeta. unfold set_version at 1.
    rewrite book_get_set_eq by (simpl; tauto). f_equal.
    change (book_get "version"
              (set_updatedAt (JStr (nowISO e)) (Object_assign b (value r)))
            = patched "version" o (book_get "version" b)).
    unfold set_updatedAt. rewrite book_get_set_ne by discriminate.
    rewrite A by (simpl; tauto).
    unfold patched. now rewrite G1 by (simpl; tauto).
Qed.

(* ------------------------------------------------------------------ *)
(** ** Identity of a record under update *)
(* ------------------------------------------------------------------ *)

(** An update never writes [createdAt]. *)
Lemma updateBook_keeps_createdAt (e : env) (i : string) (patch : jsvalue)
  (s s' : state) (b b' : book) :
  findBook (JStr i) (books s) = Some b ->
  updateBook e i patch s = (Ok b', s') ->
  createdAt b' = createdAt b.
Proof.
  intros F H. apply updateBook_fields in H.
  destruct H as (b0 & o & F' & _ & _ & _ & _ & C & _).
  rewrite F in F'. now inversion F'; subst.
Qed.

(** A patch that has no [id] leaves the [id] alone. *)
Lemma updateBook_keeps_id (e : env) (i : string) (patch : jsvalue)
  (s s' : state) (b b' : book) :
  findBook (JStr i) (books s) = Some b ->
  js_in "id" patch = Ok false ->
  updateBook e i patch s = (Ok b', s') ->
  id b' = id b.
Proof.
  intros F N H. apply updateBook_fields in H.
  destruct H as (b0 & o & F' & P & I & _).
  rewrite F in F'. inversion F'; subst b0. rewrite I. unfold patched.
  destruct patch; try discriminate; simpl in P, N; inversion P; subst o.
  - reflexivity.
  - unfold has in N. destruct (lookup "id" props); [discriminate | reflexivity].
Qed.

(** C1 (the code departs from the claim).  The claim: a successful update
    returns and stores a record with the [id] and the [createdAt] it had
    before.  The code keeps [createdAt], but [validateBook] passes an [id]
    of the patch on to [Object.assign]: on the seed collection, the update
    of [b1] by the patch [{ "id": "x9" }] succeeds, the returned and stored
    record has the id [x9], and no record has the id [b1] any more. *)
Theorem updateBook_rewrites_id :
  let s := initial "2025-01-01T00:00:00.000Z" in
  let e := mkEnv "2025-01-02T00:00:00.000Z" "a1b2c3" in
  exists b b' s',
    findBook (JStr "b1") (books s) = Some b
    /\ updateBook e "b1" (JObj [("id", JStr "x9")]) s = (Ok b', s')
    /\ id b = JStr "b1"
    /\ id b' = JStr "x9"
    /\ createdAt b' = createdAt b
    /\ findBook (JStr "b1") (books s') = None
    /\ findBook (JStr "x9") (books s') = Some b'.
Proof.
  cbv zeta. do 3 eexists.
  split; [vm_compute; reflexivity |].
  split; [vm_compute; reflexivity |].
  repeat split.
Qed.

(* ------------------------------------------------------------------ *)
(** ** Uniqueness of ids *)
(* ------------------------------------------------------------------ *)

(** C4 (the code departs from the claim).  The claim: the ids of the
    collection stay pairwise distinct along every sequence of creations,
    updates and deletions.  [createBook] refuses an id that is taken, but
    [updateBook] writes the [id] of a patch without looking it up, and
    [createBook] does not look up the id it generates.  From the seed
    collection, whose ids are distinct, the update of [b1] by
    [{ "id": "b2" }] leaves two records with the id [b2]; and after a
    creation with the id [ba1b2c3], a creation without id for which the
    random bytes read [a1b2c3] leaves two records with that id. *)
Theorem mutations_break_id_uniqueness :
  let s := initial "2025-01-01T00:00:00.000Z" in
  let e := mkEnv "2025-01-02T00:00:00.000Z" "a1b2c3" in
  NoDup (map id (books s))
  /\ map id (books (run [Update e "b1" (JObj [("id", JStr "b2")])] s))
     = [JStr "b2"; JStr "b2"; JStr "b3"]
  /\ map id (books (run [Create e (JObj [("id", JStr "ba1b2c3"); ("title", JStr "Dune")]);
                         Create e (JObj [("title", JStr "Emma")])] s))
     = [JStr "b1"; JStr "b2"; JStr "b3"; JStr "ba1b2c3"; JStr "ba1b2c3"].
Proof.
  cbv zeta. split; [| split; vm_compute; reflexivity].
  vm_compute. repeat constructor; simpl; intuition discriminate.
Qed.

(* ------------------------------------------------------------------ *)
(** ** The concurrency guard *)
(* ------------------------------------------------------------------ *)



(* ------------------------------------------------------------------ *)
(** ** Versions *)
(* ------------------------------------------------------------------ *)

Lemma pow10_S (k : nat) : pow10 (S k) = 10 * pow10 k.
Proof. unfold pow10. rewrite Nat2Z.inj_succ, Z.pow_succ_r; lia. Qed.

Lemma pow10_pos (k : nat) : 0 < pow10 k.
Proof. unfold pow10. apply Z.pow_pos_nonneg; lia. Qed.

Lemma norm_integer (a : Z) (k : nat) : norm (a * pow10 k) k = Fin a 0.
Proof.
  induction k as [| k IH].
  - simpl. f_equal. unfold pow10. simpl. lia.
  - cbn [norm]. rewrite pow10_S.
    replace (a * (10 * pow10 k)) with (a * pow10 k * 10) by lia.
    rewrite Z.mod_mul by lia. rewrite Z.div_mul by lia. simpl. exact IH.
Qed.



Lemma createBook_Ok_inv (e : env) (input : jsvalue) (s s' : state) (b : book) :
  createBook e input s = (Ok b, s') ->
  exists r,
    validateBook input false = Ok r
    /\ ok r = true
    /\ b = mkBook (js_or (get "id" (value r)) (JStr ("b" ++ randomHex e)))
                  (get "title" (value r))
                  (js_or (get "author" (value r)) (JStr "Unknown"))
                  (js_coalesce (get "year" (value r)) JNull)
                  (js_coalesce (get "rating" (value r)) JNull)
                  (js_or (get "tags" (value r)) (JArr []))
                  (JStr (nowISO e)) (JStr (nowISO e)) (JNum (Fin 1 0))
    /\ s' = persist (mkState (books s ++ [b])%list (data_file s)).
Proof.
  unfold createBook. intros H.
  destruct (validateBook input false) as [[valid val ps] | x]; [| inversion H].
  destruct valid; [| inversion H]. cbn [negb] in H.
  destruct (truthy (get "id" val) && _)%bool; [inversion H |].
  inversion H; subst. exists (mkValidation true val ps). repeat split.
Qed.

Lemma createBook_Throw_state (e : env) (input : jsvalue) (s s' : state) (x : exn) :
  createBook e input s = (Throw x, s') -> s' = s.
Proof.
  unfold createBook. intros H.
  destruct (validateBook input false) as [[valid val ps] | y];
    [| now inversion H].
  destruct valid; [| now inversion H]. cbn [negb] in H.
  destruct (truthy (get "id" val) && _)%bool; now inversion H.
Qed.

Lemma findBook_In (i : jsvalue) (l : list book) (b : book) :
  findBook i l = Some b -> In b l.
Proof. intros H. now apply find_some in H. Qed.

(** *** The records a query returns are records of the list *)


Lemma insert_sorted_In (cmp : book -> book -> Z) (x : book) (l : list book) :
  forall b, In b (insert_sorted cmp x l) <-> b = x \/ In b l.
Proof.
  induction l as [| y l IH]; intros b; simpl.
  - intuition.
  - destruct (cmp x y <? 0); simpl; [intuition |].
    rewrite IH. intuition.
Qed.







(* ------------------------------------------------------------------ *)
(** ** Bulk import *)
(* ------------------------------------------------------------------ *)

(** C10.  When the body of a bulk request has an [items] member that is
    not an array, the route answers 400 with the [VALIDATION] error and
    the state is the one before the request, whatever the mode: the test
    comes before the collection is cleared. *)
Theorem bulk_route_items_not_array (envs : nat -> env) (body : jsvalue)
  (s : state) (items : jsvalue) :
  js_get "items" body = Ok items ->
  items <> JUndefined ->
  Array_isArray items = false ->
  bulk_route envs body s
  = (SendErr 400 (mkError "VALIDATION" "items must be an array" NoDetails), s).
Proof.
  intros G U A. unfold bulk_route, destructure. rewrite G. cbn [bind].
  destruct body; simpl in G; try discriminate;
    try (inversion G; subst; now contradiction U).
  cbn [js_get bind].
  destruct items; try reflexivity; [now contradiction U | discriminate].
Qed.

Lemma bulk_route_items_not_array_witness :
  let s := initial "2025-01-01T00:00:00.000Z" in
  bulk_route (fun _ => mkEnv "2025-01-02T00:00:00.000Z" "a1b2c3")
             (JObj [("items", JStr "oops"); ("mode", JStr "replace")]) s
  = (SendErr 400 (mkError "VALIDATION" "items must be an array" NoDetails), s)
  /\ List.length (books s) = 3%nat.
Proof.
  cbv zeta. split; [| reflexivity].
  apply (bulk_route_items_not_array _ _ _ (JStr "oops")).
  - reflexivity.
  - discriminate.
  - reflexivity.
Defined.

Lemma state_before_step (envs : nat -> env) (items : list jsvalue) :
  forall k s n raw,
    nth_error items n = Some raw ->
    state_before envs k items s (S n)
    = snd (createBook (envs (k + n)%nat) raw (state_before envs k items s n)).
Proof.
  induction items as [| a items IH]; intros k s n raw H.
  - destruct n; discriminate.
  - destruct n as [| n].
    + simpl in H. inversion H; subst. simpl. rewrite Nat.add_0_r.
      now destruct items.
    + simpl in H.
      change (state_before envs k (a :: items) s (S (S n)))
        with (state_before envs (S k) items (snd (createBook (envs k) a s)) (S n)).
      change (state_before envs k (a :: items) s (S n))
        with (state_before envs (S k) items (snd (createBook (envs k) a s)) n).
      rewrite (IH (S k) _ n raw H).
      replace (k + S n)%nat with (S k + n)%nat by lia. reflexivity.
Qed.

Lemma bulk_loop_spec (envs : nat -> env) (items : list jsvalue) :
  forall k s,
    List.length (fst (bulk_loop envs k items s)) = List.length items
    /\ snd (bulk_loop envs k items s)
       = state_before envs k items s (List.length items)
    /\ forall n raw,
        nth_error items n = Some raw ->
        nth_error (fst (bulk_loop envs k items s)) n
        = Some (outcome raw (fst (createBook (envs (k + n)%nat) raw
                                             (state_before envs k items s n)))).
Proof.
  induction items as [| a items IH]; intros k s.
  - simpl. repeat split. intros [| n] raw H; discriminate.
  - cbn [bulk_loop]. destruct (createBook (envs k) a s) as [r s1] eqn:C.
    destruct (IH (S k) s1) as (L & S' & N).
    destruct (bulk_loop envs (S k) items s1) as [added s2] eqn:B.
    cbn [fst snd] in *. repeat split.
    + simpl. now rewrite L.
    + cbn [List.length state_before]. now rewrite C.
    + intros [| n] raw H; simpl in H.
      * inversion H; subst. cbn [nth_error state_before].
        rewrite Nat.add_0_r, C. reflexivity.
      * cbn [nth_error state_before]. rewrite C. cbn [snd].
        rewrite (N n raw H).
        replace (S k + n)%nat with (k + S n)%nat by lia. reflexivity.
Qed.

(** C9.  A bulk request whose [items] is an array of N values is answered
    200 with N entries, in the order of the input.  In the mode
    ["replace"] the collection is emptied before the first item is
    looked at.  The entry of index [n] is the outcome of [createBook] on
    the item of index [n], in the state the items before it have left:
    the created book, or the error together with the item.  An item that
    is rejected leaves the state as it was, and the items after it are
    processed all the same. *)
Theorem bulk_route_results (envs : nat -> env) (body : jsvalue) (s : state)
  (items : list jsvalue) (mode : jsvalue) :
  destructure "items" (JArr []) body = Ok (JArr items) ->
  destructure "mode" (JStr "append") body = Ok mode ->
  let s0 := if strict_eq mode (JStr "replace")
            then mkState [] (data_file s) else s in
  exists added,
    bulk_route envs body s
    = (SendOk 200 (added, mode),
       state_before envs 0 items s0 (List.length items))
    /\ List.length added = List.length items
    /\ state_before envs 0 items s0 0 = s0
    /\ forall n raw,
        nth_error items n = Some raw ->
        let sn := state_before envs 0 items s0 n in
        nth_error added n = Some (outcome raw (fst (createBook (envs n) raw sn)))
        /\ state_before envs 0 items s0 (S n) = snd (createBook (envs n) raw sn)
        /\ forall x, fst (createBook (envs n) raw sn) = Throw x ->
                     state_before envs 0 items s0 (S n) = sn.
Proof.
  intros I M s0. unfold bulk_route. rewrite I, M. fold s0.
  destruct (bulk_loop_spec envs items 0 s0) as (L & S' & N).
  destruct (bulk_loop envs 0 items s0) as [added s'] eqn:B.
  cbn [fst snd] in *. exists added. subst s'.
  split; [reflexivity | split; [exact L | split]].
  - now destruct items.
  - intros n raw H. cbv zeta.
    pose proof (state_before_step envs items 0 s0 n raw H) as T.
    cbn [Nat.add] in T. split; [exact (N n raw H) | split; [exact T |]].
    intros x X. rewrite T.
    destruct (createBook (envs n) raw (state_before envs 0 items s0 n))
      as [r sn'] eqn:C.
    cbn [fst snd] in *. subst r. now apply createBook_Throw_state in C.
Qed.

(** The scenario of the specification: of three items the second has no
    title; it is reported, and the first and the third are created. *)
Lemma bulk_route_results_witness :
  let envs := fun n : nat =>
    mkEnv "2025-01-02T00:00:00.000Z"
          (match n with O => "0000a1" | 1%nat => "0000a2" | _ => "0000a3" end) in
  let items := [JObj [("title", JStr "Dune")];
                JObj [("author", JStr "Nobody")];
                JObj [("title", JStr "Emma"); ("id", JStr "e1")]] in
  let body := JObj [("items", JArr items); ("mode", JStr "replace")] in
  exists added s',
    bulk_route envs body (initial "2025-01-01T00:00:00.000Z")
    = (SendOk 200 (added, JStr "replace"), s')
    /\ List.length added = 3%nat
    /\ map id (books s') = [JStr "b0000a1"; JStr "e1"]
    /\ nth_error added 1
       = Some (Rejected (mkError "VALIDATION" "Validation failed"
                                 (Problems ["title is required (string)"]))
                        (JObj [("author", JStr "Nobody")])).
Proof.
  cbv zeta.
  destruct (bulk_route_results
              (fun n : nat =>
                 mkEnv "2025-01-02T00:00:00.000Z"
                       (match n with O => "0000a1" | 1%nat => "0000a2" | _ => "0000a3" end))
              (JObj [("items", JArr [JObj [("title", JStr "Dune")];
                                     JObj [("author", JStr "Nobody")];
                                     JObj [("title", JStr "Emma"); ("id", JStr "e1")]]);
                     ("mode", JStr "replace")])
              (initial "2025-01-01T00:00:00.000Z")
              [JObj [("title", JStr "Dune")];
               JObj [("author", JStr "Nobody")];
               JObj [("title", JStr "Emma"); ("id", JStr "e1")]]
              (JStr "replace") eq_refl eq_refl)
    as (added & R & L & _ & N).
  exists added. eexists. split; [exact R | split; [exact L | split]].
  - vm_compute. reflexivity.
  - destruct (N 1%nat (JObj [("author", JStr "Nobody")]) eq_refl) as (E & _).
    rewrite E. vm_compute. reflexivity.
Defined.

(* ------------------------------------------------------------------ *)
(** ** Titles *)
(* ------------------------------------------------------------------ *)

Lemma replace_first_Forall (P : book -> Prop) (i : jsvalue) (b' : book)
  (l : list book) :
  Forall P l -> P b' -> Forall P (replace_first i b' l).
Proof.
  intros F H. induction F as [| b l Pb F IH]; simpl.
  - constructor.
  - destruct (strict_eq (id b) i); constructor; auto.
Qed.

Lemma remove_first_Forall (P : book -> Prop) (i : jsvalue) (l : list book) :
  Forall P l -> Forall P (remove_first i l).
Proof.
  intros F. induction F as [| b l Pb F IH]; simpl.
  - constructor.
  - destruct (strict_eq (id b) i); [exact F | constructor; auto].
Qed.

Lemma updateBook_Throw_state (e : env) (i : string) (patch : jsvalue)
  (s s' : state) (x : exn) :
  updateBook e i patch s = (Throw x, s') -> s' = s.
Proof.
  unfold updateBook. intros H.
  destruct (findBook (JStr i) (books s)) as [b |]; [| now inversion H].
  destruct (js_get "version" patch) as [pv | y]; [| now inversion H].
  destruct (negb (nullish pv) && _)%bool; [now inversion H |].
  destruct (validateBook patch true) as [[valid val ps] | y];
    [| now inversion H].
  destruct valid; [inversion H | now inversion H].
Qed.



Lemma deleteBook_titled (i : string) (s : state) :
  titled s -> titled (snd (deleteBook i s)).
Proof.
  intros T. unfold deleteBook. destruct (findBook (JStr i) (books s)); cbn [snd].
  - unfold titled. cbn [persist books]. now apply remove_first_Forall.
  - exact T.
Qed.







(* ------------------------------------------------------------------ *)
(** ** The query pipeline *)
(* ------------------------------------------------------------------ *)

Lemma lowered_Ok (v : jsvalue) (s : string) :
  lowered v = Ok s -> s = toLowerCase (text v).
Proof.
  unfold lowered, js_or. destruct (truthy v) eqn:T.
  - destruct v; try discriminate. intros H. now inversion H.
  - intros H. inversion H; subst. destruct v; try reflexivity.
    simpl in T. apply negb_false_iff, String.eqb_eq in T. now subst.
Qed.

Lemma lowered_total (v : jsvalue) :
  lowerable v -> lowered v = Ok (toLowerCase (text v)).
Proof.
  intros [F | S]; unfold lowered, js_or.
  - rewrite F. destruct v; try reflexivity.
    simpl in F. apply negb_false_iff, String.eqb_eq in F. now subst.
  - destruct v; try discriminate. destruct (truthy (JStr s)) eqn:T.
    + reflexivity.
    + simpl in T. apply negb_false_iff, String.eqb_eq in T. now subst.
Qed.

Lemma matches_Ok (q : string) (b : book) (c : bool) :
  matches q b = Ok c -> c = matchesb q b.
Proof.
  unfold matches, matchesb. intros H.
  destruct (lowered (title b)) as [t |] eqn:T; [| discriminate].
  apply lowered_Ok in T. subst t. cbn [bind] in H.
  destruct (includes (toLowerCase (text (title b))) q);
    [now inversion H |].
  destruct (lowered (author b)) as [a |] eqn:A; [| discriminate].
  apply lowered_Ok in A. subst a. cbn [bind] in H.
  destruct (includes (toLowerCase (text (author b))) q);
    [now inversion H |].
  destruct (lowered (id b)) as [i |] eqn:I; [| discriminate].
  apply lowered_Ok in I. subst i. cbn [bind] in H.
  destruct (includes (toLowerCase (text (id b))) q); now inversion H.
Qed.

Lemma matches_total (q : string) (b : book) :
  searchable b -> matches q b = Ok (matchesb q b).
Proof.
  intros (T & A & I). unfold matches, matchesb.
  rewrite (lowered_total _ T), (lowered_total _ A), (lowered_total _ I).
  cbn [bind].
  destruct (includes (toLowerCase (text (title b))) q); [reflexivity |].
  destruct (includes (toLowerCase (text (author b))) q); [reflexivity |].
  destruct (includes (toLowerCase (text (id b))) q); reflexivity.
Qed.

Lemma Array_filter_Ok (q : string) (l out : list book) :
  Array_filter (matches q) l = Ok out -> out = filter (matchesb q) l.
Proof.
  revert out. induction l as [| b l IH]; simpl; intros out H.
  - now inversion H.
  - destruct (matches q b) as [keep |] eqn:M; [| discriminate].
    apply matches_Ok in M. subst keep. cbn [bind] in H.
    destruct (Array_filter (matches q) l) as [rest |]; [| discriminate].
    cbn [bind] in H. inversion H; subst. now rewrite (IH rest eq_refl).
Qed.

Lemma Array_filter_total (q : string) (l : list book) :
  Forall searchable l ->
  Array_filter (matches q) l = Ok (filter (matchesb q) l).
Proof.
  intros F. induction F as [| b l Sb F IH]; simpl.
  - reflexivity.
  - now rewrite (matches_total q b Sb), IH.
Qed.

Lemma includes_empty (s : string) : includes s "" = true.
Proof. unfold includes. now destruct (chars s). Qed.

Lemma filter_matchesb_empty (l : list book) : filter (matchesb "") l = l.
Proof.
  induction l as [| b l IH]; simpl; [reflexivity |].
  unfold matchesb at 1. rewrite includes_empty. simpl. now rewrite IH.
Qed.

Lemma insert_sorted_length (cmp : book -> book -> Z) (x : book) (l : list book) :
  List.length (insert_sorted cmp x l) = S (List.length l).
Proof.
  induction l as [| y l IH]; simpl; [reflexivity |].
  destruct (cmp x y <? 0); simpl; [reflexivity | now rewrite IH].
Qed.

Lemma Array_sort_length (cmp : book -> book -> Z) (l : list book) :
  List.length (Array_sort cmp l) = List.length l.
Proof.
  unfold Array_sort.
  assert (G : forall l acc,
             List.length (fold_left (fun acc x => insert_sorted cmp x acc) l acc)
             = (List.length l + List.length acc)%nat).
  { clear l. induction l as [| x l IH]; intros acc; simpl; [reflexivity |].
    rewrite IH, insert_sorted_length. lia. }
  rewrite G. simpl. lia.
Qed.

Lemma filtered_Ok (q : string) (l out : list book) :
  filtered q l = Ok out -> out = filter (matchesb q) l.
Proof.
  unfold filtered. destruct (String.eqb_spec q "") as [-> | N]; cbn [negb].
  - intros H. inversion H; subst. now rewrite filter_matchesb_empty.
  - apply Array_filter_Ok.
Qed.

Lemma filtered_total (q : string) (l : list book) :
  Forall searchable l \/ q = "" -> exists out, filtered q l = Ok out.
Proof.
  unfold filtered. intros [F | ->].
  - destruct (negb _); eexists; [now apply Array_filter_total | reflexivity].
  - eexists. reflexivity.
Qed.

(** [applyQuery] is the filter, then the sort, then the slice; its meta
    holds the parameters in effect. *)
Lemma applyQuery_Ok (l : list book) (url : searchParams)
  (page : list book) (m : meta) :
  applyQuery l url = Ok (page, m) ->
  let matching := filter (matchesb (q m)) l in
  q m = toLowerCase (param_or "q" "" url)
  /\ limit m = Math_min (Math_max (num_param_or "limit" (Fin 20 0) url) (Fin 1 0))
                        (Fin 100 0)
  /\ offset m = Math_max (num_param_or "offset" (Fin 0 0) url) (Fin 0 0)
  /\ total m = List.length matching
  /\ page = Array_slice (Array_sort (compare_by (sort m) (dir_sign (dir m))) matching)
                        (offset m) (num_add (offset m) (limit m)).
Proof.
  unfold applyQuery. intros H.
  fold (filtered (toLowerCase (param_or "q" "" url)) l) in H.
  destruct (filtered _ l) as [out |] eqn:F; [| discriminate].
  apply filtered_Ok in F. cbn [bind] in H. inversion H; subst. clear H.
  cbn [q limit offset total sort dir]. repeat split.
  - apply Array_sort_length.
  - assert (D : (if String.eqb (toLowerCase (param_or "dir" "asc" url)) "desc"
                 then -1 else 1)
                = dir_sign (if (if String.eqb (toLowerCase (param_or "dir" "asc" url)) "desc"
                                then -1 else 1) =? 1
                            then "asc" else "desc")).
    { now destruct (String.eqb (toLowerCase (param_or "dir" "asc" url)) "desc"). }
    now rewrite <- D.
Qed.

Lemma applyQuery_total (l : list book) (url : searchParams) :
  Forall searchable l \/ toLowerCase (param_or "q" "" url) = "" ->
  exists page m, applyQuery l url = Ok (page, m).
Proof.
  intros H. apply filtered_total in H. destruct H as (out & F).
  unfold applyQuery. fold (filtered (toLowerCase (param_or "q" "" url)) l).
  rewrite F. cbn [bind]. now do 2 eexists.
Qed.



(* ------------------------------------------------------------------ *)
(** ** Limit and offset *)
(* ------------------------------------------------------------------ *)

Lemma num_add_NaN (x : number) : num_add x NaN = NaN.
Proof. now destruct x. Qed.

Lemma Array_slice_to_NaN {A : Type} (l : list A) (a : number) :
  Array_slice l a NaN = [].
Proof.
  unfold Array_slice. cbn [ToIntegerOrInfinity clamp_index].
  replace (Z.to_nat (Z.min 0 (Z.of_nat (List.length l)))) with 0%nat by lia.
  reflexivity.
Qed.

(** C6 (the code departs from the claim).  The claim: the limit in effect
    is an integer of [1, 100] and the offset in effect an integer that is
    at least 0, also for parameters that are not numeric.  [Math.max] and
    [Math.min] let [NaN] through, and nothing rounds: on the seed
    collection, [limit=abc] gives the meta the limit [NaN] and an empty
    page, [offset=abc] gives the offset [NaN] and an empty page, and
    [limit=2.5] is echoed as 2.5. *)
Theorem applyQuery_limit_not_clamped :
  let list := seed "2025-01-01T00:00:00.000Z" in
  applyQuery list [("limit", "abc")]
  = Ok ([], mkMeta 3 NaN (Fin 0 0) "title" "asc" "")
  /\ applyQuery list [("offset", "abc")]
     = Ok ([], mkMeta 3 (Fin 20 0) NaN "title" "asc" "")
  /\ exists page,
      applyQuery list [("limit", "2.5")]
      = Ok (page, mkMeta 3 (Fin 25 1) (Fin 0 0) "title" "asc" "")
      /\ List.length page = 2%nat.
Proof.
  cbv zeta. split; [vm_compute; reflexivity |].
  split; [vm_compute; reflexivity |].
  eexists. split; vm_compute; reflexivity.
Qed.

(** C7 (the code departs from the claim).  The claim: the pages at the
    offsets 0, limit, 2 limit, ... put end to end give the filtered and
    sorted sequence.  With [limit=abc] the limit in effect is [NaN] (see
    C6) and the end index of every slice is 0: on the seed collection,
    three records match and the page is empty at every offset, so no
    sequence of pages yields any of them. *)
Theorem pages_empty_when_limit_not_numeric (o : string) :
  exists m,
    applyQuery (seed "2025-01-01T00:00:00.000Z") [("limit", "abc"); ("offset", o)]
    = Ok ([], m)
    /\ total m = 3%nat
    /\ limit m = NaN.
Proof.
  destruct (applyQuery_total (seed "2025-01-01T00:00:00.000Z")
                             [("limit", "abc"); ("offset", o)]
                             (or_intror eq_refl)) as (page & m & H).
  pose proof (applyQuery_Ok _ _ _ _ H) as E. cbv zeta in E.
  destruct E as (Q & L & _ & T & P).
  assert (LN : limit m = NaN) by (rewrite L; reflexivity).
  assert (QE : q m = "") by (rewrite Q; reflexivity).
  exists m. rewrite LN, num_add_NaN, Array_slice_to_NaN in P. subst page.
  split; [exact H | split; [| exact LN]].
  rewrite T, QE, filter_matchesb_empty. reflexivity.
Qed.

(* ------------------------------------------------------------------ *)
(** ** What the mutations do preserve *)
(* ------------------------------------------------------------------ *)

(** X1.  A successful update returns the record with the [createdAt] it
    had, and with the [id] it had when the patch has no [id]. *)
Theorem updateBook_frame (e : env) (i : string) (patch : jsvalue)
  (s s' : state) (b b' : book) :
  findBook (JStr i) (books s) = Some b ->
  updateBook e i patch s = (Ok b', s') ->
  createdAt b' = createdAt b
  /\ (js_in "id" patch = Ok false -> id b' = id b).
Proof.
  intros F U. split.
  - exact (updateBook_keeps_createdAt _ _ _ _ _ _ _ F U).
  - intros N. exact (updateBook_keeps_id _ _ _ _ _ _ _ F N U).
Qed.

Lemma updateBook_frame_witness :
  let s := initial "2025-01-01T00:00:00.000Z" in
  exists b b' s',
    findBook (JStr "b1") (books s) = Some b
    /\ updateBook (mkEnv "2025-01-02T00:00:00.000Z" "a1b2c3") "b1"
                  (JObj [("title", JStr "Clean Code")]) s
       = (Ok b', s')
    /\ createdAt b' = createdAt b
    /\ id b' = id b.
Proof.
  cbv zeta. do 3 eexists.
  split; [vm_compute; reflexivity |].
  split; [vm_compute; reflexivity |].
  match goal with
  | |- createdAt ?b' = createdAt ?b /\ _ =>
      destruct (updateBook_frame
                  (mkEnv "2025-01-02T00:00:00.000Z" "a1b2c3") "b1"
                  (JObj [("title", JStr "Clean Code")])
                  (initial "2025-01-01T00:00:00.000Z")
                  (snd (updateBook (mkEnv "2025-01-02T00:00:00.000Z" "a1b2c3") "b1"
                                   (JObj [("title", JStr "Clean Code")])
                                   (initial "2025-01-01T00:00:00.000Z")))
                  b b') as [C I]
  end; [vm_compute; reflexivity | vm_compute; reflexivity |].
  split; [exact C | apply I; reflexivity].
Defined.

Lemma findBook_None_not_In (v : string) (l : list book) :
  findBook (JStr v) l = None -> ~ In (JStr v) (map id l).
Proof.
  unfold findBook. induction l as [| b l IH]; simpl; [tauto |].
  destruct (strict_eq (id b) (JStr v)) eqn:E; [discriminate |].
  intros H [I | I]; [| now apply IH].
  rewrite I in E. simpl in E. now rewrite String.eqb_refl in E.
Qed.

Lemma replace_first_ids (i : jsvalue) (b b' : book) (l : list book) :
  findBook i l = Some b -> id b' = id b ->
  map id (replace_first i b' l) = map id l.
Proof.
  unfold findBook. intros F E. induction l as [| a l IH]; simpl in *.
  - discriminate.
  - destruct (strict_eq (id a) i).
    + inversion F; subst. simpl. now rewrite E.
    + simpl. now rewrite IH.
Qed.

Lemma remove_first_incl (i : jsvalue) (l : list book) :
  incl (map id (remove_first i l)) (map id l).
Proof.
  induction l as [| a l IH]; simpl.
  - apply incl_refl.
  - destruct (strict_eq (id a) i).
    + now apply incl_tl, incl_refl.
    + simpl. intros x [<- | I]; [now left | right; now apply IH].
Qed.

Lemma remove_first_NoDup (i : jsvalue) (l : list book) :
  NoDup (map id l) -> NoDup (map id (remove_first i l)).
Proof.
  induction l as [| a l IH]; simpl; intros ND.
  - constructor.
  - inversion ND as [| ? ? NI ND']; subst.
    destruct (strict_eq (id a) i); [exact ND' |].
    simpl. constructor; [| now apply IH].
    intros I. apply NI. now apply (remove_first_incl i l).
Qed.

(** X2.  Creations that name their id, updates that do not touch the id
    and deletions keep the ids of the collection pairwise distinct. *)
Theorem ids_stay_distinct (ops : list op) (s : state) :
  Forall keeps_ids_apart ops ->
  NoDup (map id (books s)) ->
  NoDup (map id (books (run ops s))).
Proof.
  intros F. revert s. induction F as [| o ops K F IH]; intros s ND.
  - exact ND.
  - cbn [run fold_left]. apply IH. clear IH F. destruct o as [e input | e i patch | i];
      cbn [step keeps_ids_apart] in *.
    + destruct K as (v & G & NE).
      destruct (createBook e input s) as [[b | x] s'] eqn:C; cbn [snd].
      * assert (C' := C). apply createBook_Ok_inv in C'.
        destruct C' as (r & R & _ & B & ->).
        destruct (validateBook_inv _ _ _ R) as (o & P & _ & L & _).
        rewrite (js_get_props _ _ _ P) in G. inversion G as [G'].
        assert (I : get "id" (value r) = JStr v).
        { unfold get in *. rewrite L by (simpl; tauto). exact G'. }
        assert (T : truthy (JStr v) = true).
        { simpl. apply negb_true_iff. now apply String.eqb_neq. }
        assert (IB : id b = JStr v).
        { subst b. cbn [id]. unfold js_or. now rewrite I, T. }
        cbn [persist books]. rewrite map_app. cbn [map].
        apply NoDup_app; [exact ND | repeat constructor; simpl; tauto |].
        intros x Ix [<- | []]. rewrite IB in Ix.
        revert Ix. apply findBook_None_not_In.
        unfold createBook in C. rewrite R in C.
        destruct r as [valid val ps]. cbn [value] in I.
        destruct valid; [| inversion C]. cbn [negb] in C.
        rewrite I, T in C. cbn [andb] in C.
        destruct (findBook (JStr v) (books s)); [inversion C | reflexivity].
      * apply createBook_Throw_state in C. now subst.
    + destruct (updateBook e i patch s) as [[b' | x] s'] eqn:U; cbn [snd].
      * assert (U' := U). apply updateBook_fields in U'.
        destruct U' as (b & o & Fb & _ & _ & _ & _ & _ & _ & _ & _ & ->).
        cbn [persist books].
        rewrite (replace_first_ids _ b b' _ Fb); [exact ND |].
        exact (updateBook_keeps_id _ _ _ _ _ _ _ Fb K U).
      * apply updateBook_Throw_state in U. now subst.
    + unfold deleteBook. destruct (findBook (JStr i) (books s)); cbn [snd].
      * cbn [persist books]. now apply remove_first_NoDup.
      * exact ND.
Qed.

Lemma ids_stay_distinct_witness :
  let e := mkEnv "2025-01-02T00:00:00.000Z" "a1b2c3" in
  NoDup (map id (books (run [Create e (JObj [("id", JStr "d1"); ("title", JStr "Dune")]);
                            Update e "b1" (JObj [("title", JStr "Clean Code")]);
                            Delete "b2"]
                           (initial "2025-01-01T00:00:00.000Z")))).
Proof.
  cbv zeta. apply ids_stay_distinct.
  - repeat constructor. exists "d1". split; [reflexivity | discriminate].
  - vm_compute. repeat constructor; simpl; intuition discriminate.
Defined.

(* ------------------------------------------------------------------ *)
(** ** Numeric limits and pagination *)
(* ------------------------------------------------------------------ *)

(** The clamp of a number that is not [NaN] lies in [1, 100]. *)
Lemma clamp_limit (x : number) :
  x <> NaN ->
  num_leb (Fin 1 0) (Math_min (Math_max x (Fin 1 0)) (Fin 100 0)) = true
  /\ num_leb (Math_min (Math_max x (Fin 1 0)) (Fin 100 0)) (Fin 100 0) = true.
Proof.
  destruct x as [| | | m k]; intros N; [now contradiction N | now split | now split |].
  unfold Math_max, Math_min, num_leb, num_compare.
  change (pow10 0) with 1. rewrite !Z.mul_1_r.
  destruct (Z.compare_spec m (1 * pow10 k)) as [E | L | G].
  - rewrite E. rewrite !Z.mul_1_r.
    destruct (Z.compare_spec (1 * pow10 k) (100 * pow10 k)) as [E1 | L1 | G1];
      pose proof (pow10_pos k);
      rewrite ?Z.mul_1_r, ?Z.compare_refl; try lia; split; try reflexivity.
    destruct (Z.compare_spec (1 * pow10 k) (100 * pow10 k)); try lia; reflexivity.
  - now split.
  - rewrite !Z.mul_1_r.
    destruct (Z.compare_spec m (100 * pow10 k)) as [E1 | L1 | G1].
    + rewrite !Z.mul_1_r. split.
      * destruct (Z.compare_spec (1 * pow10 k) m); try lia; reflexivity.
      * destruct (Z.compare_spec m (100 * pow10 k)); try lia; reflexivity.
    + rewrite !Z.mul_1_r. split.
      * destruct (Z.compare_spec (1 * pow10 k) m); try lia; reflexivity.
      * destruct (Z.compare_spec m (100 * pow10 k)); try lia; reflexivity.
    + now split.
Qed.

Lemma clamp_offset (x : number) :
  x <> NaN -> num_leb (Fin 0 0) (Math_max x (Fin 0 0)) = true.
Proof.
  destruct x as [| | | m k]; intros N; [now contradiction N | easy | easy |].
  unfold Math_max, num_leb, num_compare.
  change (pow10 0) with 1. rewrite !Z.mul_1_r.
  destruct (Z.compare_spec m (0 * pow10 k)) as [E | L | G]; try reflexivity;
    rewrite ?Z.mul_1_r;
    destruct (Z.compare_spec (0 * pow10 k) m); try lia; reflexivity.
Qed.

Lemma num_param_or_numeric (name : string) (dflt : number) (url : searchParams) :
  dflt <> NaN -> numeric (sp_get name url) -> num_param_or name dflt url <> NaN.
Proof.
  unfold num_param_or, numeric. intros D.
  destruct (sp_get name url) as [s |]; [| auto].
  destruct (String.eqb_spec s ""); [auto | intros [E | N]; [contradiction | exact N]].
Qed.

(** X3.  When the [limit] and [offset] parameters are absent, empty or
    numeric, the limit in effect lies in [1, 100] and the offset in
    effect is at least 0; an absent parameter gives 20 and 0. *)
Theorem applyQuery_numeric_parameters (l : list book) (url : searchParams)
  (page : list book) (m : meta) :
  applyQuery l url = Ok (page, m) ->
  numeric (sp_get "limit" url) ->
  numeric (sp_get "offset" url) ->
  num_leb (Fin 1 0) (limit m) = true
  /\ num_leb (limit m) (Fin 100 0) = true
  /\ num_leb (Fin 0 0) (offset m) = true
  /\ (sp_get "limit" url = None -> limit m = Fin 20 0)
  /\ (sp_get "offset" url = None -> offset m = Fin 0 0).
Proof.
  intros H NL NO. apply applyQuery_Ok in H. cbv zeta in H.
  destruct H as (_ & L & O & _). rewrite L, O.
  destruct (clamp_limit (num_param_or "limit" (Fin 20 0) url)) as [L1 L2];
    [apply num_param_or_numeric; [discriminate | exact NL] |].
  repeat split; auto.
  - apply clamp_offset. apply num_param_or_numeric; [discriminate | exact NO].
  - intros E. unfold num_param_or. now rewrite E.
  - intros E. unfold num_param_or. now rewrite E.
Qed.

Lemma applyQuery_numeric_parameters_witness :
  exists page m,
    applyQuery (seed "2025-01-01T00:00:00.000Z")
               [("limit", "250"); ("offset", "-3")] = Ok (page, m)
    /\ limit m = Fin 100 0
    /\ offset m = Fin 0 0
    /\ num_leb (Fin 1 0) (limit m) = true.
Proof.
  do 2 eexists. split; [vm_compute; reflexivity |].
  split; [reflexivity | split; [reflexivity |]].
  refine (proj1 (applyQuery_numeric_parameters
                   (seed "2025-01-01T00:00:00.000Z")
                   [("limit", "250"); ("offset", "-3")] _ _ _ _ _)).
  - vm_compute. reflexivity.
  - right. vm_compute. discriminate.
  - right. vm_compute. discriminate.
Defined.

(** *** Pages *)

Lemma firstn_plus {A : Type} (a b : nat) (l : list A) :
  firstn (a + b) l = (firstn a l ++ firstn b (skipn a l))%list.
Proof.
  revert l. induction a as [| a IH]; intros l; simpl.
  - reflexivity.
  - destruct l as [| x l]; simpl.
    + now rewrite firstn_nil.
    + now rewrite IH.
Qed.

(** Windows of width [n] at the positions [0], [n], [2 n], ... *)
Lemma concat_windows {A : Type} (l : list A) (n N : nat) :
  List.concat (map (fun k => firstn n (skipn (k * n) l)) (seq 0 N)) = firstn (N * n) l.
Proof.
  induction N as [| N IH].
  - reflexivity.
  - rewrite seq_S, map_app, concat_app, IH. simpl.
    rewrite app_nil_r. replace (n + N * n)%nat with (N * n + n)%nat by lia.
    now rewrite firstn_plus.
Qed.

(** A slice between two integer positions. *)
Lemma Array_slice_integers {A : Type} (l : list A) (a n : Z) :
  0 <= a -> 0 <= n ->
  Array_slice l (Fin a 0) (Fin (a + n) 0)
  = firstn (Z.to_nat n) (skipn (Z.to_nat a) l).
Proof.
  intros Ha Hn. unfold Array_slice. cbn [ToIntegerOrInfinity].
  change (pow10 0) with 1. rewrite !Z.quot_1_r. unfold clamp_index.
  destruct (Z.ltb_spec a 0); [lia |]. destruct (Z.ltb_spec (a + n) 0); [lia |].
  set (len := List.length l).
  destruct (Z_le_gt_dec (Z.of_nat len) a) as [Big | Small].
  - replace (Z.to_nat (Z.min a (Z.of_nat len))) with len by lia.
    rewrite (skipn_all2 (n := len) l) by (subst len; lia).
    rewrite (skipn_all2 (n := Z.to_nat a) l) by (fold len; lia).
    now rewrite !firstn_nil.
  - replace (Z.to_nat (Z.min a (Z.of_nat len))) with (Z.to_nat a) by lia.
    destruct (Z_le_gt_dec (a + n) (Z.of_nat len)) as [In | Out].
    + f_equal. lia.
    + rewrite !firstn_all2; [reflexivity | |];
        rewrite length_skipn; fold len; lia.
Qed.

Lemma applyQuery_sorted_view (l : list book) (url : searchParams) :
  applyQuery l url
  = (view <- sorted_view l url ;;
     let limit :=
       Math_min (Math_max (num_param_or "limit" (Fin 20 0) url) (Fin 1 0))
                (Fin 100 0) in
     let offset := Math_max (num_param_or "offset" (Fin 0 0) url) (Fin 0 0) in
     Ok (Array_slice view offset (num_add offset limit),
         mkMeta (List.length view) limit offset
                (if existsb (String.eqb (param_or "sort" "title" url)) sortable
                 then param_or "sort" "title" url else "title")
                (if (if String.eqb (toLowerCase (param_or "dir" "asc" url)) "desc"
                     then -1 else 1) =? 1 then "asc" else "desc")
                (toLowerCase (param_or "q" "" url)))).
Proof.
  unfold applyQuery, sorted_view.
  fold (filtered (toLowerCase (param_or "q" "" url)) l).
  now destruct (filtered _ l).
Qed.

Lemma sorted_view_offset (l : list book) (url : searchParams) (o : string) :
  sorted_view l (("offset", o) :: url) = sorted_view l url.
Proof. reflexivity. Qed.

Lemma Math_max_zero (a : Z) : 0 <= a -> Math_max (Fin a 0) (Fin 0 0) = Fin a 0.
Proof.
  intros H. unfold Math_max, num_compare. change (pow10 0) with 1.
  destruct (Z.compare_spec (a * 1) (0 * 1)); try reflexivity. lia.
Qed.

Lemma num_add_integers (a b : Z) : num_add (Fin a 0) (Fin b 0) = Fin (a + b) 0.
Proof.
  unfold num_add. change (pow10 0) with 1. simpl. f_equal. lia.
Qed.

(** X4.  With a limit in effect that is the integer [n], the pages at the
    offsets [0], [n], [2 n], ..., once they reach the end of the sequence,
    make up the filtered and sorted sequence: every matching record once,
    in order. *)
Theorem pages_cover (l : list book) (url : searchParams) (view : list book)
  (n : Z) (offs : nat -> string) (N : nat) :
  sorted_view l url = Ok view ->
  Math_min (Math_max (num_param_or "limit" (Fin 20 0) url) (Fin 1 0)) (Fin 100 0)
  = Fin n 0 ->
  (forall k, (k < N)%nat ->
             offs k <> "" /\ StringToNumber (offs k) = Fin (Z.of_nat k * n) 0) ->
  Z.of_nat (List.length view) <= Z.of_nat N * n ->
  List.concat (map (fun k => page_at l url (offs k)) (seq 0 N)) = view.
Proof.
  intros V L O Len.
  assert (Hn : 1 <= n).
  { destruct (clamp_limit (num_param_or "limit" (Fin 20 0) url)) as [H1 _].
    - intros E. rewrite E in L. discriminate.
    - rewrite L in H1. unfold num_leb, num_compare in H1.
      change (pow10 0) with 1 in H1.
      destruct (Z.compare_spec (1 * 1) (n * 1)); try discriminate; lia. }
  assert (P : forall k, (k < N)%nat ->
              page_at l url (offs k)
              = firstn (Z.to_nat n) (skipn (k * Z.to_nat n) view)).
  { intros k Hk. destruct (O k Hk) as [NE E].
    unfold page_at. rewrite applyQuery_sorted_view, sorted_view_offset, V.
    cbn [bind]. cbv zeta.
    change (num_param_or "limit" (Fin 20 0) (("offset", offs k) :: url))
      with (num_param_or "limit" (Fin 20 0) url).
    rewrite L.
    assert (X : num_param_or "offset" (Fin 0 0) (("offset", offs k) :: url)
                = Fin (Z.of_nat k * n) 0).
    { unfold num_param_or. cbn [sp_get]. rewrite String.eqb_refl.
      apply String.eqb_neq in NE. now rewrite NE. }
    rewrite X, Math_max_zero by lia.
    rewrite num_add_integers, Array_slice_integers by lia.
    f_equal. f_equal. rewrite Z2Nat.inj_mul by lia. now rewrite Nat2Z.id. }
  rewrite (map_ext_in _ (fun k => firstn (Z.to_nat n) (skipn (k * Z.to_nat n) view))).
  - rewrite concat_windows. apply firstn_all2.
    apply Nat2Z.inj_le. rewrite Nat2Z.inj_mul, Z2Nat.id by lia. exact Len.
  - intros k I. apply in_seq in I. apply P. lia.
Qed.

(** The seed collection by pages of two: the offsets 0 and 2 give the
    three records, ordered by title. *)
Lemma pages_cover_witness :
  let l := seed "2025-01-01T00:00:00.000Z" in
  let url := [("limit", "2")] in
  map id (page_at l url "0" ++ page_at l url "2")%list
  = [JStr "b1"; JStr "b2"; JStr "b3"]
  /\ List.length (page_at l url "0") = 2%nat.
Proof.
  cbv zeta. split; [| vm_compute; reflexivity].
  pose proof (pages_cover (seed "2025-01-01T00:00:00.000Z") [("limit", "2")]
                          (seed "2025-01-01T00:00:00.000Z") 2
                          (fun k => match k with O => "0" | _ => "2" end) 2) as H.
  cbn [seq map List.concat] in H. rewrite app_nil_r in H. rewrite H.
  - reflexivity.
  - vm_compute. reflexivity.
  - vm_compute. reflexivity.
  - intros [| [| k]] Hk; [split; [discriminate | vm_compute; reflexivity] ..| lia].
  - vm_compute. discriminate.
Defined.

(* ------------------------------------------------------------------ *)
(** ** Creation and persistence *)
(* ------------------------------------------------------------------ *)

(** X5.  A creation that succeeds returns a record at version 1 whose
    [createdAt] and [updatedAt] are the time of the call; the record is
    appended to the collection, and the file holds the new collection. *)
Theorem createBook_appends (e : env) (input : jsvalue) (s s' : state) (b : book) :
  createBook e input s = (Ok b, s') ->
  version b = JNum (Fin 1 0)
  /\ createdAt b = JStr (nowISO e)
  /\ updatedAt b = JStr (nowISO e)
  /\ nonempty_string (title b)
  /\ books s' = (books s ++ [b])%list
  /\ data_file s' = books s'.
Proof.
  intros H. apply createBook_Ok_inv in H. destruct H as (r & R & V & B & ->).
  destruct (validateBook_inv _ _ _ R) as (_ & _ & _ & _ & _ & N).
  subst b. cbn [version createdAt updatedAt title persist books data_file].
  repeat split. now apply N.
Qed.

(** The scenario of the specification: a creation with the title "Dune"
    and no id. *)
Lemma createBook_appends_witness :
  let s := initial "2025-01-01T00:00:00.000Z" in
  exists b s',
    createBook (mkEnv "2025-01-02T00:00:00.000Z" "a1b2c3")
               (JObj [("title", JStr "Dune")]) s = (Ok b, s')
    /\ id b = JStr "ba1b2c3"
    /\ author b = JStr "Unknown"
    /\ version b = JNum (Fin 1 0)
    /\ List.length (books s') = 4%nat.
Proof.
  cbv zeta. do 2 eexists. split; [vm_compute; reflexivity |].
  split; [reflexivity | split; [reflexivity |]].
  match goal with
  | |- version ?b = _ /\ _ =>
      destruct (createBook_appends
                  (mkEnv "2025-01-02T00:00:00.000Z" "a1b2c3")
                  (JObj [("title", JStr "Dune")])
                  (initial "2025-01-01T00:00:00.000Z")
                  (snd (createBook (mkEnv "2025-01-02T00:00:00.000Z" "a1b2c3")
                                   (JObj [("title", JStr "Dune")])
                                   (initial "2025-01-01T00:00:00.000Z")))
                  b) as (V & _ & _ & _ & B & _)
  end; [vm_compute; reflexivity |].
  split; [exact V | reflexivity].
Defined.

(** X6.  After a creation, an update or a deletion the file holds the
    collection that is in memory, provided it did before: a mutation that
    succeeds persists, and one that throws changes nothing. *)
Theorem step_keeps_file_in_sync (s : state) (o : op) :
  data_file s = books s -> data_file (step s o) = books (step s o).
Proof.
  intros H. destruct o as [e input | e i patch | i]; cbn [step].
  - destruct (createBook e input s) as [[b | x] s'] eqn:C; cbn [snd].
    + apply createBook_Ok_inv in C. now destruct C as (_ & _ & _ & _ & ->).
    + apply createBook_Throw_state in C. now subst.
  - destruct (updateBook e i patch s) as [[b | x] s'] eqn:U; cbn [snd].
    + apply updateBook_Ok_inv in U.
      now destruct U as (_ & _ & _ & _ & _ & _ & _ & _ & _ & ->).
    + apply updateBook_Throw_state in U. now subst.
  - unfold deleteBook. now destruct (findBook (JStr i) (books s)).
Qed.

Lemma step_keeps_file_in_sync_witness :
  let s := step (initial "2025-01-01T00:00:00.000Z") (Delete "b2") in
  data_file s = books s /\ List.length (books s) = 2%nat.
Proof.
  cbv zeta. split; [| reflexivity].
  apply step_keeps_file_in_sync. reflexivity.
Defined.

Lemma bulk_loop_collection (envs : nat -> env) (items : list jsvalue) :
  forall (n : nat) (s s' : state) (added : list bulk_item),
    bulk_loop envs n items s = (added, s') ->
    books s' = (books s ++ accepted added)%list
    /\ data_file s' = match accepted added with
                      | [] => data_file s
                      | _ :: _ => books s'
                      end.
Proof.
  induction items as [| raw rest IH]; intros n s s' added H; simpl in H.
  - inversion H; subst. simpl. now rewrite app_nil_r.
  - destruct (createBook (envs n) raw s) as [r s1] eqn:C.
    destruct (bulk_loop envs (S n) rest s1) as [added' s2] eqn:B.
    inversion H; subst. clear H.
    destruct (IH _ _ _ _ B) as [Bk Df].
    destruct r as [b | x].
    + apply createBook_Ok_inv in C. destruct C as (r & _ & _ & _ & ->).
      cbn [persist books data_file accepted] in *.
      split; [now rewrite Bk, <- app_assoc |].
      rewrite Df. destruct (accepted added'); [| reflexivity].
      now rewrite Bk, app_nil_r.
    + apply createBook_Throw_state in C. subst s1. cbn [accepted]. now split.
Qed.

(** X7.  After a bulk import the collection in memory is what the mode
    keeps of it (nothing for ["replace"], everything otherwise) followed by
    the records created, in the order of the items; the file holds the same
    when a record was created and is left as it was when none was.  So a
    ["replace"] whose items are all rejected empties the memory and leaves
    the file full. *)
Theorem bulk_route_collection (envs : nat -> env) (body mode : jsvalue)
  (s s' : state) (added : list bulk_item) :
  bulk_route envs body s = (SendOk 200 (added, mode), s') ->
  let kept := if strict_eq mode (JStr "replace") then [] else books s in
  books s' = (kept ++ accepted added)%list
  /\ data_file s' = match accepted added with
                    | [] => data_file s
                    | _ :: _ => books s'
                    end.
Proof.
  unfold bulk_route. intros H.
  destruct (destructure "items" (JArr []) body) as [items |]; [| discriminate].
  destruct (destructure "mode" (JStr "append") body) as [md |]; [| discriminate].
  destruct items as [| | | | | l |]; try discriminate.
  destruct (bulk_loop envs 0 l _) as [added' s2] eqn:B.
  inversion H; subst. clear H.
  apply bulk_loop_collection in B.
  destruct (strict_eq mode (JStr "replace")); exact B.
Qed.

Lemma bulk_route_collection_witness :
  let s := initial "2025-01-01T00:00:00.000Z" in
  let r := bulk_route (fun _ => mkEnv "2025-01-02T00:00:00.000Z" "a1b2c3")
                      (JObj [("items", JArr [JObj [("title", JStr "")]]);
                             ("mode", JStr "replace")]) s in
  books (snd r) = [] /\ data_file (snd r) = books s /\ List.length (books s) = 3%nat.
Proof.
  cbv zeta.
  set (s := initial "2025-01-01T00:00:00.000Z").
  set (envs := fun _ : nat => mkEnv "2025-01-02T00:00:00.000Z" "a1b2c3").
  set (body := JObj [("items", JArr [JObj [("title", JStr "")]]);
                     ("mode", JStr "replace")]).
  destruct (bulk_route envs body s) as [r s'] eqn:H.
  assert (R : exists e i, r = SendOk 200 ([Rejected e i], JStr "replace"))
    by (vm_compute in H; inversion H; eauto).
  destruct R as (e & i & ->).
  destruct (bulk_route_collection envs body (JStr "replace") s s' _ H) as [B D].
  cbn [snd]. split; [exact B |]. split; [exact D | reflexivity].
Defined.

(* ------------------------------------------------------------------ *)
(** ** Create, read, update, delete *)
(* ------------------------------------------------------------------ *)

Lemma findBook_app (j : jsvalue) (l : list book) (b : book) :
  findBook j (l ++ [b])
  = match findBook j l with
    | Some x => Some x
    | None => if strict_eq (id b) j then Some b else None
    end.
Proof.
  unfold findBook. induction l as [| a l IH]; simpl.
  - reflexivity.
  - destruct (strict_eq (id a) j); [reflexivity | exact IH].
Qed.

Lemma strict_eq_JStr (v : jsvalue) (i : string) :
  strict_eq v (JStr i) = true -> v = JStr i.
Proof.
  destruct v; simpl; try discriminate. intros E.
  apply String.eqb_eq in E. now subst.
Qed.

Lemma findBook_id (i : string) (l : list book) (b : book) :
  findBook (JStr i) l = Some b -> id b = JStr i.
Proof.
  intros F. apply find_some in F. destruct F as [_ E].
  now apply strict_eq_JStr.
Qed.

(** A creation whose input names its id, a non-empty string, gives the
    record that id, and the id was free. *)
Lemma createBook_named_id (e : env) (input : jsvalue) (s s' : state)
  (b : book) (v : string) :
  createBook e input s = (Ok b, s') ->
  js_get "id" input = Ok (JStr v) -> v <> "" ->
  id b = JStr v /\ findBook (JStr v) (books s) = None.
Proof.
  intros C G NE. assert (C' := C). apply createBook_Ok_inv in C'.
  destruct C' as (r & R & _ & B & _).
  destruct (validateBook_inv _ _ _ R) as (o & P & _ & L & _).
  rewrite (js_get_props _ _ _ P) in G.
  assert (G' : get "id" o = JStr v) by congruence. clear G.
  assert (I : get "id" (value r) = JStr v).
  { unfold get in *. rewrite L by (simpl; tauto). exact G'. }
  assert (T : truthy (JStr v) = true).
  { simpl. apply negb_true_iff. now apply String.eqb_neq. }
  split.
  - subst b. cbn [id]. unfold js_or. now rewrite I, T.
  - unfold createBook in C. rewrite R in C.
    destruct r as [valid val ps]. cbn [value] in I.
    destruct valid; [| inversion C]. cbn [negb] in C.
    rewrite I, T in C. cbn [andb] in C.
    destruct (findBook (JStr v) (books s)); [inversion C | reflexivity].
Qed.

(** X8.  After a creation that succeeds, every lookup that found a record
    before finds the same record, and when the input names its id, a
    non-empty string, the lookup of that id finds the created record. *)
Theorem createBook_then_find (e : env) (input : jsvalue) (s s' : state) (b : book) :
  createBook e input s = (Ok b, s') ->
  (forall j x, findBook j (books s) = Some x -> findBook j (books s') = Some x)
  /\ (forall v, js_get "id" input = Ok (JStr v) -> v <> "" ->
                id b = JStr v /\ findBook (JStr v) (books s') = Some b).
Proof.
  intros C. assert (C' := C). apply createBook_Ok_inv in C'.
  destruct C' as (r & _ & _ & _ & S'). split.
  - intros j x F. subst s'. cbn [persist books].
    now rewrite findBook_app, F.
  - intros v G NE. destruct (createBook_named_id _ _ _ _ _ _ C G NE) as [I N].
    split; [exact I |]. subst s'. cbn [persist books].
    rewrite findBook_app, N, I. simpl. now rewrite String.eqb_refl.
Qed.

Lemma createBook_then_find_witness :
  let r := createBook (mkEnv "2025-01-02T00:00:00.000Z" "a1b2c3")
                      (JObj [("id", JStr "d1"); ("title", JStr "Dune")])
                      (initial "2025-01-01T00:00:00.000Z") in
  match fst r with
  | Ok b => id b = JStr "d1" /\ findBook (JStr "d1") (books (snd r)) = Some b
  | Throw _ => False
  end.
Proof.
  cbv zeta.
  destruct (createBook (mkEnv "2025-01-02T00:00:00.000Z" "a1b2c3")
                       (JObj [("id", JStr "d1"); ("title", JStr "Dune")])
                       (initial "2025-01-01T00:00:00.000Z"))
    as [[b | x] s'] eqn:C; cbn [fst snd].
  - apply (proj2 (createBook_then_find _ _ _ _ _ C) "d1");
      [reflexivity | discriminate].
  - vm_compute in C. discriminate.
Defined.

Lemma replace_first_length (i : jsvalue) (b' : book) (l : list book) :
  List.length (replace_first i b' l) = List.length l.
Proof.
  induction l as [| a l IH]; simpl; [reflexivity |].
  destruct (strict_eq (id a) i); simpl; [reflexivity | now rewrite IH].
Qed.

Lemma findBook_replace_first_same (i : string) (b b' : book) (l : list book) :
  findBook (JStr i) l = Some b -> id b' = JStr i ->
  findBook (JStr i) (replace_first (JStr i) b' l) = Some b'.
Proof.
  unfold findBook. intros F E. induction l as [| a l IH]; simpl in *.
  - discriminate.
  - destruct (strict_eq (id a) (JStr i)) eqn:A; simpl.
    + rewrite E. simpl. now rewrite String.eqb_refl.
    + rewrite A. now apply IH.
Qed.

Lemma findBook_replace_first_other (i j : string) (b' : book) (l : list book) :
  j <> i -> id b' = JStr i ->
  findBook (JStr j) (replace_first (JStr i) b' l) = findBook (JStr j) l.
Proof.
  unfold findBook. intros N E. induction l as [| a l IH]; simpl.
  - reflexivity.
  - destruct (strict_eq (id a) (JStr i)) eqn:A; simpl.
    + apply strict_eq_JStr in A. rewrite E, A. simpl.
      apply String.eqb_neq in N. rewrite String.eqb_sym in N. now rewrite N.
    + destruct (strict_eq (id a) (JStr j)); [reflexivity | exact IH].
Qed.

(** X9.  After an update that succeeds with a patch that has no [id], the
    lookup of the id finds the updated record, the collection has as many
    records as before, and the lookups of the other ids are unchanged. *)
Theorem updateBook_then_find (e : env) (i : string) (patch : jsvalue)
  (s s' : state) (b' : book) :
  updateBook e i patch s = (Ok b', s') ->
  js_in "id" patch = Ok false ->
  findBook (JStr i) (books s') = Some b'
  /\ List.length (books s') = List.length (books s)
  /\ forall j, j <> i -> findBook (JStr j) (books s') = findBook (JStr j) (books s).
Proof.
  intros U N. assert (U' := U). apply updateBook_Ok_inv in U'.
  destruct U' as (b & _ & _ & F & _ & _ & _ & _ & _ & S').
  assert (I : id b' = JStr i).
  { rewrite (updateBook_keeps_id _ _ _ _ _ _ _ F N U). now apply findBook_id in F. }
  subst s'. cbn [persist books]. split; [| split].
  - now apply (findBook_replace_first_same i b).
  - apply replace_first_length.
  - intros j NE. now apply findBook_replace_first_other.
Qed.

Lemma updateBook_then_find_witness :
  let r := updateBook (mkEnv "2025-01-02T00:00:00.000Z" "a1b2c3") "b2"
                      (JObj [("year", JStr "2018")])
                      (initial "2025-01-01T00:00:00.000Z") in
  match fst r with
  | Ok b' => findBook (JStr "b2") (books (snd r)) = Some b'
             /\ List.length (books (snd r)) = 3%nat
  | Throw _ => False
  end.
Proof.
  cbv zeta.
  destruct (updateBook (mkEnv "2025-01-02T00:00:00.000Z" "a1b2c3") "b2"
                       (JObj [("year", JStr "2018")])
                       (initial "2025-01-01T00:00:00.000Z"))
    as [[b' | x] s'] eqn:U; cbn [fst snd].
  - destruct (updateBook_then_find _ _ _ _ _ _ U eq_refl) as (F & L & _).
    split; [exact F | exact L].
  - vm_compute in U. discriminate.
Defined.

Lemma remove_first_length (i : jsvalue) (l : list book) (b : book) :
  findBook i l = Some b ->
  S (List.length (remove_first i l)) = List.length l.
Proof.
  unfold findBook. induction l as [| a l IH]; simpl; [discriminate |].
  destruct (strict_eq (id a) i); simpl; [reflexivity |].
  intros F. now rewrite IH.
Qed.

Lemma findBook_remove_first_other (i j : string) (l : list book) :
  j <> i ->
  findBook (JStr j) (remove_first (JStr i) l) = findBook (JStr j) l.
Proof.
  unfold findBook. intros N. induction l as [| a l IH]; simpl.
  - reflexivity.
  - destruct (strict_eq (id a) (JStr i)) eqn:A; simpl.
    + apply strict_eq_JStr in A. rewrite A. simpl.
      apply String.eqb_neq in N. rewrite String.eqb_sym in N. now rewrite N.
    + destruct (strict_eq (id a) (JStr j)); [reflexivity | exact IH].
Qed.

Lemma findBook_remove_first_same (i : string) (l : list book) :
  NoDup (map id l) -> findBook (JStr i) (remove_first (JStr i) l) = None.
Proof.
  unfold findBook. induction l as [| a l IH]; simpl; intros ND.
  - reflexivity.
  - inversion ND as [| ? ? NI ND']; subst.
    destruct (strict_eq (id a) (JStr i)) eqn:A; simpl.
    + apply strict_eq_JStr in A. rewrite A in NI.
      destruct (find (fun b => strict_eq (id b) (JStr i)) l) as [x |] eqn:F;
        [| reflexivity].
      exfalso. apply NI. apply find_some in F. destruct F as [In' E].
      apply strict_eq_JStr in E. rewrite <- E. now apply in_map.
    + rewrite A. now apply IH.
Qed.

(** X10.  A deletion of an id no record has throws 404 and changes
    nothing.  A deletion of an id in use returns the first record with
    that id and removes that record only: the collection is one record
    shorter, the lookups of the other ids are unchanged, the file holds
    the new collection, and when the ids were pairwise distinct the id is
    no longer found. *)
Theorem deleteBook_removes (i : string) (s : state) :
  (findBook (JStr i) (books s) = None ->
   deleteBook i s
   = (Throw (Http 404 (mkError "NOT_FOUND" "Book not found" NoDetails)), s))
  /\ (forall b, findBook (JStr i) (books s) = Some b ->
        exists s',
          deleteBook i s = (Ok b, s')
          /\ S (List.length (books s')) = List.length (books s)
          /\ (forall j, j <> i ->
                findBook (JStr j) (books s') = findBook (JStr j) (books s))
          /\ data_file s' = books s'
          /\ (NoDup (map id (books s)) -> findBook (JStr i) (books s') = None)).
Proof.
  unfold deleteBook. split.
  - intros F. now rewrite F.
  - intros b F. rewrite F. eexists. split; [reflexivity |].
    cbn [persist books data_file]. repeat split.
    + now apply (remove_first_length _ _ b).
    + intros j NE. now apply findBook_remove_first_other.
    + apply findBook_remove_first_same.
Qed.

(** *** Replies of the mutation routes *)






(* ------------------------------------------------------------------ *)
(** ** What the validator lets through *)
(* ------------------------------------------------------------------ *)

Lemma num_ltb_false_leb (x y : number) :
  x <> NaN -> y <> NaN -> num_ltb x y = false -> num_leb y x = true.
Proof.
  destruct x as [| | | m k], y as [| | | m' k']; intros X Y;
    try (now contradiction X); try (now contradiction Y);
    try reflexivity; try discriminate.
  unfold num_ltb, num_leb, num_compare.
  rewrite (Z.compare_antisym (m * pow10 k') (m' * pow10 k)).
  now destruct (m * pow10 k' ?= m' * pow10 k).
Qed.

Lemma Number_isInteger_Fin (n : number) :
  Number_isInteger n = true -> exists m k, n = Fin m k.
Proof. destruct n; try discriminate. now do 2 eexists. Qed.

(** [norm] keeps the value, and never lengthens the fraction. *)
Lemma norm_spec (m : Z) (k : nat) :
  exists m' k', norm m k = Fin m' k'
                /\ m * pow10 k' = m' * pow10 k /\ (k' <= k)%nat.
Proof.
  revert m. induction k as [| k IH]; intros m.
  - exists m, 0%nat. repeat split; lia.
  - cbn [norm]. destruct (Z.eqb_spec (m mod 10) 0) as [E | E].
    + destruct (IH (m / 10)) as (m' & k' & N & V & L).
      exists m', k'. split; [exact N | split; [| lia]].
      rewrite pow10_S.
      assert (M : m = 10 * (m / 10)).
      { pose proof (Z.div_mod m 10). lia. }
      rewrite M at 1. nia.
    + exists m, (S k). repeat split; lia.
Qed.

(** The rating the validator stores for an accepted number. *)
Lemma round1_ok (n : number) :
  Number_isNaN n = false ->
  num_ltb n (Fin 0 0) = false ->
  num_gtb n (Fin 5 0) = false ->
  rating_ok (JNum (num_div10 (Math_round (num_mul n (Fin 10 0))))).
Proof.
  destruct n as [| | | m k]; try discriminate. intros _ L G.
  unfold num_ltb, num_compare in L. unfold num_gtb, num_ltb, num_compare in G.
  change (pow10 0) with 1 in *.
  assert (M0 : 0 <= m).
  { destruct (Z.compare_spec (m * 1) (0 * pow10 k)); try discriminate; lia. }
  assert (M5 : m <= 5 * pow10 k).
  { destruct (Z.compare_spec (5 * pow10 k) (m * 1)); try discriminate; lia. }
  clear L G. unfold num_mul.
  destruct (norm_spec (m * 10) (k + 0)) as (a & j & N & V & _).
  rewrite N. cbn [Math_round num_div10].
  pose proof (pow10_pos k) as Pk. pose proof (pow10_pos j) as Pj.
  pose proof (pow10_pos (k + 0)) as Pk0.
  assert (K0 : pow10 (k + 0) = pow10 k) by (now rewrite Nat.add_0_r).
  rewrite K0 in V.
  assert (A0 : 0 <= a) by nia.
  assert (A5 : a <= 50 * pow10 j) by nia.
  set (z := (2 * a + pow10 j) / (2 * pow10 j)).
  assert (Z0 : 0 <= z) by (apply Z.div_pos; lia).
  assert (Z5 : z <= 50).
  { assert (z < 51); [| lia]. apply Z.div_lt_upper_bound; lia. }
  right. cbn [norm]. destruct (Z.eqb_spec (z mod 10) 0) as [E | E].
  - cbn [norm]. exists (Fin (z / 10) 0). split; [reflexivity |].
    assert (Q : z = 10 * (z / 10)) by (pose proof (Z.div_mod z 10); lia).
    assert (Q0 : 0 <= z / 10 <= 5) by lia.
    unfold num_leb, num_compare, num_mul. change (pow10 0) with 1.
    repeat split.
    + destruct (Z.compare_spec (0 * 1) (z / 10 * 1)); try reflexivity; lia.
    + destruct (Z.compare_spec (z / 10 * 1) (5 * 1)); try reflexivity; lia.
    + cbn [Nat.add norm Number_isInteger]. change (pow10 0) with 1.
      now rewrite Z.mod_1_r.
  - exists (Fin z 1). split; [reflexivity |].
    unfold num_leb, num_compare, num_mul.
    change (pow10 0) with 1. change (pow10 1) with 10.
    repeat split.
    + destruct (Z.compare_spec (0 * 10) (z * 1)); try reflexivity; lia.
    + destruct (Z.compare_spec (z * 1) (5 * 10)); try reflexivity; lia.
    + change (1 + 0)%nat with 1%nat.
      replace (z * 10) with (z * pow10 1) by (change (pow10 1) with 10; lia).
      rewrite norm_integer. cbn [Number_isInteger]. change (pow10 0) with 1.
      now rewrite Z.mod_1_r.
Qed.

(** The year the validator stores for an accepted number. *)
Lemma year_number_ok (n : number) :
  Number_isInteger n = true ->
  num_ltb n (Fin 0 0) = false ->
  num_gtb n (Fin 3000 0) = false ->
  year_ok (JNum n).
Proof.
  intros I L G. right. exists n. split; [reflexivity | split; [exact I |]].
  destruct (Number_isInteger_Fin n I) as (m & k & ->).
  split; apply num_ltb_false_leb; try discriminate; assumption.
Qed.

(** The tags the validator stores for an array. *)
Lemma tags_array_ok (l : list jsvalue) :
  tags_ok (JArr (firstn 20 (map (fun t => JStr (ToString t)) l))).
Proof.
  right. eexists. split; [reflexivity | split].
  - apply firstn_le_length.
  - apply Forall_forall. intros t I.
    assert (J : In t (map (fun t => JStr (ToString t)) l)).
    { rewrite <- (firstn_skipn 20 (map _ l)). apply in_or_app. now left. }
    apply in_map_iff in J. destruct J as (x & <- & _). reflexivity.
Qed.

Lemma has_get (k : string) (o : object) :
  has k o = true -> lookup k o = Some (get k o).
Proof. unfold has, get. now destruct (lookup k o). Qed.

Lemma nullish_when_present (k : string) (P : jsvalue -> Prop) (o : object) :
  (forall v, nullish v = true -> P v) ->
  (has k o && negb (nullish (get k o)))%bool = false ->
  when_present k P o.
Proof.
  intros N H v L. unfold has, get in H. rewrite L in H. cbn [andb] in H.
  apply negb_false_iff in H. now apply N.
Qed.

Lemma check_year_sound (out out' : object) (ps ps' : list string) :
  check_year (out, ps) = (out', ps') -> ps' = [] ->
  when_present "year" year_ok out'
  /\ forall k, k <> "year" -> lookup k out' = lookup k out.
Proof.
  unfold check_year.
  destruct (has "year" out && negb (nullish (get "year" out)))%bool eqn:H.
  - destruct (negb (Number_isInteger (ToNumber (get "year" out)))
              || num_ltb (ToNumber (get "year" out)) (Fin 0 0)
              || num_gtb (ToNumber (get "year" out)) (Fin 3000 0))%bool eqn:B;
      intros E; inversion E; subst; intros Ps.
    + apply app_eq_nil in Ps. destruct Ps; discriminate.
    + apply orb_false_elim in B. destruct B as [B G].
      apply orb_false_elim in B. destruct B as [I L].
      apply negb_false_iff in I. split.
      * intros v Lk. rewrite lookup_set_eq in Lk. inversion Lk; subst.
        now apply year_number_ok.
      * intros k N. now apply lookup_set_ne.
  - intros E; inversion E; subst; intros _. split; [| auto].
    apply nullish_when_present; [| exact H]. intros v N. now left.
Qed.

Lemma check_rating_sound (out out' : object) (ps ps' : list string) :
  check_rating (out, ps) = (out', ps') -> ps' = [] ->
  when_present "rating" rating_ok out'
  /\ forall k, k <> "rating" -> lookup k out' = lookup k out.
Proof.
  unfold check_rating.
  destruct (has "rating" out && negb (nullish (get "rating" out)))%bool eqn:H.
  - destruct (Number_isNaN (ToNumber (get "rating" out))
              || num_ltb (ToNumber (get "rating" out)) (Fin 0 0)
              || num_gtb (ToNumber (get "rating" out)) (Fin 5 0))%bool eqn:B;
      intros E; inversion E; subst; intros Ps.
    + apply app_eq_nil in Ps. destruct Ps; discriminate.
    + apply orb_false_elim in B. destruct B as [B G].
      apply orb_false_elim in B. destruct B as [I L]. split.
      * intros v Lk. rewrite lookup_set_eq in Lk. inversion Lk; subst.
        now apply round1_ok.
      * intros k N. now apply lookup_set_ne.
  - intros E; inversion E; subst; intros _. split; [| auto].
    apply nullish_when_present; [| exact H]. intros v N. now left.
Qed.

Lemma check_tags_sound (out out' : object) (ps ps' : list string) :
  check_tags (out, ps) = (out', ps') -> ps' = [] ->
  when_present "tags" tags_ok out'
  /\ forall k, k <> "tags" -> lookup k out' = lookup k out.
Proof.
  unfold check_tags.
  destruct (has "tags" out && negb (nullish (get "tags" out)))%bool eqn:H.
  - destruct (get "tags" out) eqn:T; intros E; inversion E; subst; intros Ps;
      try (apply app_eq_nil in Ps; destruct Ps; discriminate).
    split.
    + intros v Lk. rewrite lookup_set_eq in Lk. inversion Lk; subst.
      apply tags_array_ok.
    + intros k N. now apply lookup_set_ne.
  - intros E; inversion E; subst; intros _. split; [| auto].
    apply nullish_when_present; [| exact H]. intros v N. now left.
Qed.

Lemma validateBook_checked (input : jsvalue) (partial : bool) (r : validation) :
  validateBook input partial = Ok r ->
  ok r = true ->
  when_present "year" year_ok (value r)
  /\ when_present "rating" rating_ok (value r)
  /\ when_present "tags" tags_ok (value r).
Proof.
  intros R V. unfold validateBook in R.
  destruct (fold_left (copy_field input) fields (Ok [])) as [out | x];
    [| discriminate].
  cbn [bind] in R.
  destruct (check_title partial (out, [])) as [o1 p1] eqn:C1.
  destruct (check_year (o1, p1)) as [o2 p2] eqn:C2.
  destruct (check_rating (o2, p2)) as [o3 p3] eqn:C3.
  destruct (check_tags (o3, p3)) as [o4 p4] eqn:C4.
  inversion R; subst. cbn [ok value] in *.
  destruct p4; [| discriminate].
  destruct (check_tags_normalizing (o3, p3)) as (_ & _ & N3).
  rewrite C4 in N3. cbn [snd] in N3. specialize (N3 eq_refl). subst p3.
  destruct (check_rating_normalizing (o2, p2)) as (_ & _ & N2).
  rewrite C3 in N2. cbn [snd] in N2. specialize (N2 eq_refl). subst p2.
  destruct (check_year_sound _ _ _ _ C2 eq_refl) as [Y Y'].
  destruct (check_rating_sound _ _ _ _ C3 eq_refl) as [Ra Ra'].
  destruct (check_tags_sound _ _ _ _ C4 eq_refl) as [T T'].
  repeat split.
  - intros v L. apply Y. now rewrite <- Ra', <- T' by discriminate.
  - intros v L. apply Ra. now rewrite <- T' by discriminate.
  - exact T.
Qed.

(** X12.  What an accepted input leaves in the validated value: only
    properties of the whitelist; a [year] that is [null] or an integer of
    [0, 3000]; a [rating] that is [null] or a number of [0, 5] with at
    most one decimal; [tags] that are [null] or an array of at most 20
    strings. *)
Theorem validateBook_normalizes (input : jsvalue) (partial : bool) (r : validation) :
  validateBook input partial = Ok r ->
  ok r = true ->
  (forall k, has k (value r) = true -> In k fields)
  /\ when_present "year" year_ok (value r)
  /\ when_present "rating" rating_ok (value r)
  /\ when_present "tags" tags_ok (value r).
Proof.
  intros R V. split.
  - intros k H. destruct (validateBook_inv _ _ _ R) as (_ & _ & _ & _ & G & _).
    destruct (in_dec string_dec k fields) as [I | N]; [exact I |].
    unfold has in H. now rewrite (G k N) in H.
  - exact (validateBook_checked _ _ _ R V).
Qed.

(** An input with a rating of 4.55, a year given as a string and thirty
    tags. *)
Lemma validateBook_normalizes_witness :
  let input := JObj [("title", JStr "Dune"); ("rating", JNum (Fin 455 2));
                     ("year", JStr "1965"); ("pages", JNum (Fin 412 0));
                     ("tags", JArr (repeat (JNum (Fin 7 0)) 30))] in
  exists r,
    validateBook input false = Ok r
    /\ get "rating" (value r) = JNum (Fin 46 1)
    /\ get "year" (value r) = JNum (Fin 1965 0)
    /\ has "pages" (value r) = false
    /\ tags_ok (get "tags" (value r)).
Proof.
  cbv zeta. eexists. split; [vm_compute; reflexivity |].
  split; [reflexivity | split; [reflexivity | split; [reflexivity |]]].
  refine (proj2 (proj2 (proj2 (validateBook_normalizes
            (JObj [("title", JStr "Dune"); ("rating", JNum (Fin 455 2));
                   ("year", JStr "1965"); ("pages", JNum (Fin 412 0));
                   ("tags", JArr (repeat (JNum (Fin 7 0)) 30))])
            false _ _ _))) _ _);
    vm_compute; reflexivity.
Defined.

(* ------------------------------------------------------------------ *)
(** ** Well-formed records *)
(* ------------------------------------------------------------------ *)

(** The properties an update takes from the validated patch. *)
Lemma updateBook_assigned (e : env) (i : string) (patch : jsvalue)
  (s s' : state) (b' : book) :
  updateBook e i patch s = (Ok b', s') ->
  exists b r,
    findBook (JStr i) (books s) = Some b
    /\ validateBook patch true = Ok r
    /\ ok r = true
    /\ s' = persist (mkState (replace_first (JStr i) b' (books s)) (data_file s))
    /\ forall k, In k book_keys -> k <> "updatedAt" -> k <> "version" ->
         book_get k b'
         = match lookup k (value r) with Some v => v | None => book_get k b end.
Proof.
  intros H. apply updateBook_Ok_inv in H.
  destruct H as (b & r & o & F & P & C & R & V & B & S).
  exists b, r. repeat split; auto.
  intros k I N1 N2.
  destruct (validateBook_inv _ _ _ R) as (_ & _ & ND & _).
  rewrite <- (Object_assign_get k (value r) I ND b).
  subst b'. cbv zeta. unfold set_version, set_updatedAt.
  now rewrite !book_get_set_ne.
Qed.

Lemma year_ok_coalesce (o : object) :
  when_present "year" year_ok o -> year_ok (js_coalesce (get "year" o) JNull).
Proof.
  intros W. unfold get, js_coalesce.
  destruct (lookup "year" o) as [v |] eqn:L; [| now left].
  destruct (nullish v) eqn:N; [now left | now apply W].
Qed.

Lemma rating_ok_coalesce (o : object) :
  when_present "rating" rating_ok o ->
  rating_ok (js_coalesce (get "rating" o) JNull).
Proof.
  intros W. unfold get, js_coalesce.
  destruct (lookup "rating" o) as [v |] eqn:L; [| now left].
  destruct (nullish v) eqn:N; [now left | now apply W].
Qed.

Lemma tags_ok_or (o : object) :
  when_present "tags" tags_ok o -> tags_ok (js_or (get "tags" o) (JArr [])).
Proof.
  assert (E : tags_ok (JArr [])).
  { right. exists []. repeat split; [simpl; lia | constructor]. }
  intros W. unfold get, js_or.
  destruct (lookup "tags" o) as [v |] eqn:L; [| exact E].
  destruct (truthy v) eqn:T; [now apply W | exact E].
Qed.

Lemma createBook_well_formed (e : env) (input : jsvalue) (s s' : state) (b : book) :
  createBook e input s = (Ok b, s') -> well_formed b.
Proof.
  intros H. apply createBook_Ok_inv in H. destruct H as (r & R & V & -> & _).
  destruct (validateBook_checked _ _ _ R V) as (Y & Ra & T).
  unfold well_formed. cbn [year rating tags createdAt updatedAt is_string].
  repeat split.
  - now apply year_ok_coalesce.
  - now apply rating_ok_coalesce.
  - now apply tags_ok_or.
Qed.

Lemma updateBook_well_formed (e : env) (i : string) (patch : jsvalue)
  (s s' : state) (b b' : book) :
  findBook (JStr i) (books s) = Some b ->
  well_formed b ->
  updateBook e i patch s = (Ok b', s') ->
  well_formed b'.
Proof.
  intros F (Y & Ra & T & C & U) H.
  pose proof (updateBook_keeps_createdAt _ _ _ _ _ _ _ F H) as KC.
  assert (H' := H). apply updateBook_fields in H'.
  destruct H' as (_ & _ & _ & _ & _ & _ & _ & _ & UA & _).
  apply updateBook_assigned in H.
  destruct H as (b0 & r & F' & R & V & _ & A).
  rewrite F in F'. inversion F'; subst b0. clear F'.
  destruct (validateBook_checked _ _ _ R V) as (Y' & Ra' & T').
  unfold well_formed. rewrite KC, UA. repeat split; auto.
  - change (year_ok (book_get "year" b')).
    rewrite A by (simpl; try discriminate; tauto).
    destruct (lookup "year" (value r)) eqn:L; [now apply Y' | exact Y].
  - change (rating_ok (book_get "rating" b')).
    rewrite A by (simpl; try discriminate; tauto).
    destruct (lookup "rating" (value r)) eqn:L; [now apply Ra' | exact Ra].
  - change (tags_ok (book_get "tags" b')).
    rewrite A by (simpl; try discriminate; tauto).
    destruct (lookup "tags" (value r)) eqn:L; [now apply T' | exact T].
Qed.

Lemma step_well_formed (s : state) (o : op) :
  Forall well_formed (books s) -> Forall well_formed (books (step s o)).
Proof.
  intros W. destruct o as [e input | e i patch | i]; cbn [step].
  - destruct (createBook e input s) as [[b | x] s'] eqn:C; cbn [snd].
    + pose proof (createBook_well_formed _ _ _ _ _ C) as Wb.
      apply createBook_Ok_inv in C. destruct C as (_ & _ & _ & _ & ->).
      cbn [persist books]. apply Forall_app. split; [exact W | now constructor].
    + apply createBook_Throw_state in C. now subst.
  - destruct (updateBook e i patch s) as [[b' | x] s'] eqn:U; cbn [snd].
    + assert (U' := U). apply updateBook_Ok_inv in U'.
      destruct U' as (b & _ & _ & F & _ & _ & _ & _ & _ & S').
      assert (Wb : well_formed b).
      { rewrite Forall_forall in W. apply W. now apply findBook_In in F. }
      pose proof (updateBook_well_formed _ _ _ _ _ _ _ F Wb U) as Wb'.
      subst s'. cbn [persist books]. now apply replace_first_Forall.
    + apply updateBook_Throw_state in U. now subst.
  - unfold deleteBook. destruct (findBook (JStr i) (books s)); cbn [snd].
    + cbn [persist books]. now apply remove_first_Forall.
    + exact W.
Qed.

Lemma bulk_loop_well_formed (envs : nat -> env) (items : list jsvalue) :
  forall k s, Forall well_formed (books s) ->
              Forall well_formed (books (snd (bulk_loop envs k items s))).
Proof.
  induction items as [| raw items IH]; intros k s W; cbn [bulk_loop].
  - exact W.
  - pose proof (step_well_formed s (Create (envs k) raw) W) as W1.
    cbn [step] in W1.
    destruct (createBook (envs k) raw s) as [r s1]. cbn [snd] in W1.
    specialize (IH (S k) s1 W1).
    destruct (bulk_loop envs (S k) items s1) as [added s2]. exact IH.
Qed.

(** X13.  In a collection whose records are well formed (a year that is
    [null] or an integer of [0, 3000], a rating that is [null] or a number
    of [0, 5] with at most one decimal, tags that are [null] or at most 20
    strings, timestamps that are strings), every creation, update,
    deletion and bulk import leaves only well-formed records. *)
Theorem well_formed_preserved (s : state) :
  Forall well_formed (books s) ->
  (forall o, Forall well_formed (books (step s o)))
  /\ (forall envs body, Forall well_formed (books (snd (bulk_route envs body s)))).
Proof.
  intros W. split.
  - intros o. now apply step_well_formed.
  - intros envs body. unfold bulk_route.
    destruct (destructure "items" (JArr []) body) as [items | x]; [| exact W].
    destruct (destructure "mode" (JStr "append") body) as [mode | x]; [| exact W].
    destruct items; try exact W.
    set (s0 := if strict_eq mode (JStr "replace") then _ else s).
    assert (W0 : Forall well_formed (books s0)).
    { subst s0. destruct (strict_eq mode (JStr "replace")); [constructor | exact W]. }
    pose proof (bulk_loop_well_formed envs l 0 s0 W0) as W'.
    destruct (bulk_loop envs 0 l s0) as [added s']. exact W'.
Qed.

Ltac well_formed_literal :=
  unfold well_formed; repeat split; try reflexivity;
  right; eexists; (split; [reflexivity |]);
  repeat split; try reflexivity; try (simpl; lia); repeat constructor.

Lemma seed_well_formed (now : string) : Forall well_formed (books (initial now)).
Proof.
  unfold initial, seed. cbn [persist books].
  constructor; [well_formed_literal |].
  constructor; [well_formed_literal |].
  constructor; [well_formed_literal | constructor].
Qed.

Lemma well_formed_preserved_witness :
  Forall well_formed
    (books (step (initial "2025-01-01T00:00:00.000Z")
                 (Update (mkEnv "2025-01-02T00:00:00.000Z" "a1b2c3") "b1"
                         (JObj [("rating", JStr "3.14"); ("tags", JNull)])))).
Proof.
  apply (proj1 (well_formed_preserved (initial "2025-01-01T00:00:00.000Z")
                                      (seed_well_formed _))).
Defined.

(* ------------------------------------------------------------------ *)
(** ** Migration and startup *)
(* ------------------------------------------------------------------ *)

Lemma truthy_JStr (t : string) : t <> "" -> truthy (JStr t) = true.
Proof. intros N. simpl. apply negb_true_iff. now apply String.eqb_neq. Qed.

Lemma migrate_book_migrated (now : string) (b : book) :
  now <> "" -> migrated (fst (migrate_book now b)).
Proof.
  intros N. pose proof (truthy_JStr now N) as T.
  destruct b as [i t a y r g c u v]. unfold migrate_book, migrated.
  cbn [tags createdAt updatedAt version fst].
  destruct (Array_isArray g) eqn:G; cbn [fst book_set String.eqb Ascii.eqb Bool.eqb
                                          createdAt updatedAt version tags];
    destruct (truthy c) eqn:C; cbn [fst book_set String.eqb Ascii.eqb Bool.eqb
                                     createdAt updatedAt version tags];
    destruct (truthy u) eqn:U; cbn [fst book_set String.eqb Ascii.eqb Bool.eqb
                                     createdAt updatedAt version tags];
    rewrite ?C, ?T; cbn [fst book_set String.eqb Ascii.eqb Bool.eqb
                          createdAt updatedAt version tags];
    destruct (isInteger_value v) eqn:V;
    cbn [fst book_set String.eqb Ascii.eqb Bool.eqb
         createdAt updatedAt version tags];
    repeat split; auto.
Qed.

Lemma migrate_book_fixed (now : string) (b : book) :
  migrated b -> migrate_book now b = (b, false).
Proof.
  intros (G & C & U & V). unfold migrate_book.
  rewrite G. cbn [fst]. rewrite C. cbn [fst]. rewrite U. cbn [fst].
  now rewrite V.
Qed.

Lemma migrate_book_unchanged (now : string) (b : book) :
  snd (migrate_book now b) = false -> fst (migrate_book now b) = b.
Proof.
  unfold migrate_book.
  destruct (Array_isArray (tags b)); cbn [fst];
    destruct (truthy (createdAt _)); cbn [fst];
    destruct (truthy (updatedAt _)); cbn [fst];
    destruct (isInteger_value (version _)); cbn [fst snd];
    try discriminate; reflexivity.
Qed.

Lemma migrate_book_keeps (now : string) (b : book) :
  let b' := fst (migrate_book now b) in
  id b' = id b /\ title b' = title b /\ author b' = author b
  /\ year b' = year b /\ rating b' = rating b.
Proof.
  destruct b as [i t a y r g c u v]. unfold migrate_book.
  cbn [tags createdAt updatedAt version fst].
  destruct (Array_isArray g); cbn [fst book_set String.eqb Ascii.eqb Bool.eqb
                                    createdAt updatedAt version tags];
    destruct (truthy c); cbn [fst book_set String.eqb Ascii.eqb Bool.eqb
                               createdAt updatedAt version tags];
    destruct (truthy u); cbn [fst book_set String.eqb Ascii.eqb Bool.eqb
                               createdAt updatedAt version tags];
    try destruct (truthy (JStr now));
    cbn [fst book_set String.eqb Ascii.eqb Bool.eqb
         createdAt updatedAt version tags];
    destruct (isInteger_value v);
    cbn [fst book_set String.eqb Ascii.eqb Bool.eqb
         createdAt updatedAt version tags id title author year rating];
    repeat split.
Qed.

Lemma migrateDb_fixed (clock : nat -> string) (l : list book) :
  forall k, Forall migrated l -> migrateDb clock k l = (l, false).
Proof.
  induction l as [| b l IH]; intros k F; cbn [migrateDb].
  - reflexivity.
  - inversion F; subst. rewrite migrate_book_fixed by assumption.
    now rewrite IH.
Qed.

Lemma migrateDb_inv (clock : nat -> string) :
  (forall j, clock j <> "") ->
  forall l k,
    Forall migrated (fst (migrateDb clock k l))
    /\ map id (fst (migrateDb clock k l)) = map id l
    /\ map title (fst (migrateDb clock k l)) = map title l
    /\ map author (fst (migrateDb clock k l)) = map author l
    /\ map year (fst (migrateDb clock k l)) = map year l
    /\ map rating (fst (migrateDb clock k l)) = map rating l
    /\ (snd (migrateDb clock k l) = false -> fst (migrateDb clock k l) = l).
Proof.
  intros C l. induction l as [| b l IH]; intros k; cbn [migrateDb].
  - repeat split. constructor.
  - pose proof (migrate_book_migrated (clock k) b (C k)) as Mb.
    pose proof (migrate_book_keeps (clock k) b) as Kb. cbv zeta in Kb.
    pose proof (migrate_book_unchanged (clock k) b) as Ub.
    destruct (migrate_book (clock k) b) as [b' c]. cbn [fst snd] in *.
    destruct (IH (S k)) as (F & I & T & A & Y & R & U).
    destruct (migrateDb clock (S k) l) as [l' c']. cbn [fst snd map] in *.
    destruct Kb as (K1 & K2 & K3 & K4 & K5).
    repeat split; try (f_equal; assumption).
    + now constructor.
    + intros E. apply orb_false_elim in E. destruct E as [E1 E2].
      now rewrite (Ub E1), (U E2).
Qed.

(** X14.  With a clock that never reads the empty string, [migrateDb]
    leaves every book with an array of tags, a [createdAt], an
    [updatedAt] and an integer version; it keeps the number and the order
    of the books and their id, title, author, year and rating; it reports
    no change only when it left the books as they were; and it leaves a
    migrated collection untouched, so that migrating twice is migrating
    once. *)
Theorem migrateDb_backfills (clock : nat -> string) (k : nat) (l : list book) :
  (forall j, clock j <> "") ->
  let l' := fst (migrateDb clock k l) in
  Forall migrated l'
  /\ map id l' = map id l /\ map title l' = map title l
  /\ map author l' = map author l /\ map year l' = map year l
  /\ map rating l' = map rating l
  /\ (snd (migrateDb clock k l) = false -> l' = l)
  /\ (forall clock' k', migrateDb clock' k' l' = (l', false)).
Proof.
  intros C. cbv zeta.
  destruct (migrateDb_inv clock C l k) as (F & I & T & A & Y & R & U).
  repeat split; auto.
  intros clock' k'. now apply migrateDb_fixed.
Qed.

(** A file written before tags, timestamps and versions existed. *)
Lemma migrateDb_backfills_witness :
  let old := mkBook (JStr "o1") (JStr "Emma") (JStr "Jane Austen")
                    (JNum (Fin 1815 0)) JUndefined JUndefined
                    JUndefined JUndefined (JStr "3") in
  let l' := fst (migrateDb (fun _ => "2025-01-01T00:00:00.000Z") 0 [old]) in
  Forall migrated l'
  /\ map version l' = [JNum (Fin 1 0)]
  /\ map updatedAt l' = [JStr "2025-01-01T00:00:00.000Z"]
  /\ map tags l' = [JArr []].
Proof.
  cbv zeta. split; [| repeat split].
  apply (migrateDb_backfills (fun _ => "2025-01-01T00:00:00.000Z") 0).
  intros j. discriminate.
Defined.

Lemma seed_migrated (now : string) : now <> "" -> Forall migrated (seed now).
Proof.
  intros N. pose proof (truthy_JStr now N) as T.
  unfold seed. repeat constructor; exact T.
Qed.

(** X15.  When the module is loaded with a clock that never reads the
    empty string, the file holds the collection that is in memory and
    every record is migrated; without a data file the state is the seed
    collection, and a file of migrated records is loaded as it is. *)
Theorem startup_loads (now : string) (clock : nat -> string)
  (file : option (list book)) :
  now <> "" ->
  (forall j, clock j <> "") ->
  let s := startup now clock file in
  data_file s = books s
  /\ Forall migrated (books s)
  /\ (file = None -> s = initial now)
  /\ (forall l, file = Some l -> Forall migrated l -> books s = l).
Proof.
  intros N C. cbv zeta. unfold startup.
  destruct (ensureDataFile now file) as [db on_disk] eqn:E.
  cbn [persist books data_file].
  destruct (migrateDb_inv clock C db 0) as (F & _).
  repeat split; auto.
  - intros ->. cbn [ensureDataFile] in E. inversion E; subst.
    rewrite (migrateDb_fixed clock (seed now) 0 (seed_migrated now N)).
    reflexivity.
  - intros l -> M. cbn [ensureDataFile] in E. inversion E; subst.
    now rewrite (migrateDb_fixed clock _ 0 M).
Qed.

Lemma startup_loads_witness :
  let s := startup "2025-01-01T00:00:00.000Z"
                   (fun _ => "2025-01-01T00:00:00.000Z") None in
  data_file s = books s /\ List.length (books s) = 3%nat.
Proof.
  cbv zeta. split; [| reflexivity].
  refine (proj1 (startup_loads "2025-01-01T00:00:00.000Z"
                               (fun _ => "2025-01-01T00:00:00.000Z") None _ _));
    [discriminate | intros j; discriminate].
Defined.

(* ------------------------------------------------------------------ *)
(** ** The rate limiter as a sliding window *)
(* ------------------------------------------------------------------ *)

Lemma hits_get_set_eq (ip : string) (arr : list Z) (m : hits) :
  hits_get ip (hits_set ip arr m) = Some arr.
Proof.
  induction m as [| [k old] m IH]; simpl.
  - now rewrite String.eqb_refl.
  - destruct (String.eqb ip k) eqn:E; simpl.
    + now rewrite String.eqb_refl.
    + now rewrite E.
Qed.

Lemma hits_get_set_ne (ip ip' : string) (arr : list Z) (m : hits) :
  ip' <> ip -> hits_get ip' (hits_set ip arr m) = hits_get ip' m.
Proof.
  intros N. induction m as [| [k old] m IH]; simpl.
  - apply String.eqb_neq in N. now rewrite N.
  - destruct (String.eqb_spec ip k) as [-> | N0]; simpl.
    + apply String.eqb_neq in N. now rewrite N.
    + destruct (String.eqb ip' k); [reflexivity | exact IH].
Qed.

Lemma filter_all {A : Type} (f : A -> bool) (l : list A) :
  Forall (fun x => f x = true) l -> filter f l = l.
Proof.
  intros F. induction F as [| x l Hx F IH]; simpl; [reflexivity |].
  now rewrite Hx, IH.
Qed.

Lemma filter_filter_weaker {A : Type} (f g : A -> bool) (l : list A) :
  (forall x, f x = true -> g x = true) -> filter f (filter g l) = filter f l.
Proof.
  intros W. induction l as [| x l IH]; simpl; [reflexivity |].
  destruct (g x) eqn:G; simpl.
  - destruct (f x); now rewrite IH.
  - destruct (f x) eqn:F; [| exact IH]. apply W in F. congruence.
Qed.

(** On times in ascending order the loop drops what the window drops. *)
Lemma shift_old_filter (now : Z) (arr : list Z) :
  StronglySorted Z.le arr -> shift_old now arr = filter (recent now) arr.
Proof.
  intros S. induction S as [| t rest S IH F]; simpl; [reflexivity |].
  unfold recent at 1. destruct (Z.gtb_spec (now - t) HORIZON) as [G | G].
  - destruct (Z.leb_spec (now - t) HORIZON); [lia | exact IH].
  - destruct (Z.leb_spec (now - t) HORIZON); [| lia]. f_equal.
    symmetry. apply filter_all. apply Forall_forall. intros u I.
    rewrite Forall_forall in F. specialize (F u I).
    unfold recent. apply Z.leb_le. lia.
Qed.

Lemma StronglySorted_snoc_inv (l : list Z) (x : Z) :
  StronglySorted Z.le (l ++ [x]) ->
  StronglySorted Z.le l /\ Forall (fun y => y <= x) l.
Proof.
  induction l as [| a l IH]; simpl; intros S.
  - split; constructor.
  - inversion S as [| ? ? S' F]; subst. destruct (IH S') as [S1 F1].
    split.
    + constructor; [exact S1 |]. rewrite Forall_forall in *.
      intros u I. apply F. apply in_or_app. now left.
    + constructor; [| exact F1]. rewrite Forall_forall in F.
      apply F. apply in_or_app. right. now left.
Qed.

Lemma StronglySorted_snoc (l : list Z) (x : Z) :
  StronglySorted Z.le l -> Forall (fun y => y <= x) l ->
  StronglySorted Z.le (l ++ [x]).
Proof.
  intros S. induction S as [| a l S IH F]; simpl; intros B.
  - repeat constructor.
  - inversion B; subst. constructor; [now apply IH |].
    apply Forall_app. split; [exact F | now constructor].
Qed.

Lemma StronglySorted_filter (f : Z -> bool) (l : list Z) :
  StronglySorted Z.le l -> StronglySorted Z.le (filter f l).
Proof.
  intros S. induction S as [| a l S IH F]; simpl; [constructor |].
  destruct (f a); [| exact IH]. constructor; [exact IH |].
  rewrite Forall_forall in *. intros u I. apply filter_In in I. now apply F.
Qed.

Lemma times_of_snoc (ip a : string) (t : Z) (h : list (Z * string)) :
  times_of ip (h ++ [(t, a)])
  = (times_of ip h ++ if String.eqb a ip then [t] else [])%list.
Proof.
  unfold times_of. rewrite filter_app, map_app. cbn [filter snd].
  now destruct (String.eqb a ip).
Qed.

Lemma times_of_bound (ip : string) (h : list (Z * string)) (x : Z) :
  Forall (fun y => y <= x) (map fst h) -> Forall (fun y => y <= x) (times_of ip h).
Proof.
  unfold times_of. rewrite !Forall_forall. intros F u I.
  apply in_map_iff in I. destruct I as (r & <- & I). apply filter_In in I.
  apply F. apply in_map. tauto.
Qed.

Lemma stored_rateLimited (now : Z) (ip ip' : string) (m : hits) :
  stored ip' (snd (rateLimited now ip m))
  = if String.eqb ip' ip then (shift_old now (stored ip m) ++ [now])%list
    else stored ip' m.
Proof.
  unfold rateLimited, stored. cbn [snd].
  destruct (String.eqb_spec ip' ip) as [-> | N].
  - now rewrite hits_get_set_eq.
  - now rewrite hits_get_set_ne.
Qed.

(** What the map holds after requests at ascending times: for every
    address, in ascending order, times of its requests, among them all
    those a later moment still counts. *)
Lemma serve_window (h : list (Z * string)) :
  StronglySorted Z.le (map fst h) ->
  forall ip,
    StronglySorted Z.le (stored ip (serve h []))
    /\ incl (stored ip (serve h [])) (times_of ip h)
    /\ forall now', Forall (fun y => y <= now') (map fst h) ->
         filter (recent now') (stored ip (serve h []))
         = filter (recent now') (times_of ip h).
Proof.
  induction h as [| [t a] h IH] using rev_ind; intros S ip.
  - cbn. repeat split; [constructor | apply incl_refl].
  - rewrite map_app in S. cbn [map fst] in S.
    apply StronglySorted_snoc_inv in S. destruct S as [S B].
    unfold serve. rewrite fold_left_app. cbn [fold_left fst snd].
    fold (serve h []). rewrite stored_rateLimited, times_of_snoc.
    rewrite (String.eqb_sym ip a).
    destruct (String.eqb_spec a ip) as [-> | N].
    + destruct (IH S ip) as (So & In' & W).
      rewrite (shift_old_filter t _ So).
      assert (Bt : Forall (fun y => y <= t) (stored ip (serve h []))).
      { rewrite Forall_forall. intros u I. apply In' in I.
        pose proof (times_of_bound ip h t B) as Tb.
        rewrite Forall_forall in Tb. now apply Tb. }
      repeat split.
      * apply StronglySorted_snoc; [now apply StronglySorted_filter |].
        rewrite Forall_forall in *. intros u I. apply filter_In in I.
        now apply Bt.
      * intros u I. apply in_app_or in I. apply in_or_app.
        destruct I as [I | I]; [left | now right].
        apply filter_In in I. now apply In'.
      * intros now' F. rewrite map_app, Forall_app in F. destruct F as [F Ft].
        rewrite !filter_app. f_equal.
        rewrite filter_filter_weaker; [now apply W |].
        intros u R. unfold recent in *. inversion Ft; subst. cbn [fst] in *.
        apply Z.leb_le in R. apply Z.leb_le. lia.
    + destruct (IH S ip) as (So & In' & W). rewrite app_nil_r.
      repeat split; auto.
      intros now' F. rewrite map_app, Forall_app in F. now apply W.
Qed.

(** X16.  For requests that arrive at ascending times, starting from the
    empty map, [rateLimited] is a sliding window: a request is limited
    exactly when more than 100 requests of its address, itself and the
    limited ones included, lie within the last five minutes.  The times
    kept for the other addresses do not change, and an address that has
    made fewer than 100 requests is not limited. *)
Theorem rateLimited_sliding_window (h : list (Z * string)) (now : Z) (ip : string) :
  StronglySorted Z.le (map fst (h ++ [(now, ip)])) ->
  let m := serve h [] in
  fst (rateLimited now ip m)
  = (Z.of_nat (List.length (filter (recent now) (times_of ip (h ++ [(now, ip)]))))
     >? LIMIT)
  /\ (forall ip', ip' <> ip ->
        stored ip' (snd (rateLimited now ip m)) = stored ip' m)
  /\ ((List.length (times_of ip h) < 100)%nat ->
      fst (rateLimited now ip m) = false).
Proof.
  intros S. cbv zeta. rewrite map_app in S. cbn [map fst] in S.
  apply StronglySorted_snoc_inv in S. destruct S as [S B].
  destruct (serve_window h S ip) as (So & _ & W).
  assert (E : fst (rateLimited now ip (serve h []))
              = (Z.of_nat (List.length
                             (filter (recent now) (times_of ip (h ++ [(now, ip)]))))
                 >? LIMIT)).
  { unfold rateLimited. cbn [fst]. fold (stored ip (serve h [])).
    rewrite (shift_old_filter now _ So), (W now B), times_of_snoc.
    rewrite String.eqb_refl, filter_app. cbn [filter].
    replace (recent now now) with true; [reflexivity |].
    unfold recent, HORIZON. symmetry. apply Z.leb_le. lia. }
  split; [exact E | split].
  - intros ip' N. rewrite stored_rateLimited.
    apply String.eqb_neq in N. now rewrite N.
  - intros L. rewrite E, times_of_snoc, String.eqb_refl, filter_app, length_app.
    cbn [filter]. replace (recent now now) with true
      by (unfold recent, HORIZON; symmetry; apply Z.leb_le; lia).
    pose proof (filter_length_le (recent now) (times_of ip h)) as FL.
    cbn [List.length]. unfold LIMIT.
    destruct (Z.gtb_spec (Z.of_nat (List.length (filter (recent now) (times_of ip h)) + 1))
                         100); [lia | reflexivity].
Qed.

(** Three requests of one address and one of another within a second. *)
Lemma rateLimited_sliding_window_witness :
  let h := [(1000, "10.0.0.1"); (1200, "10.0.0.2"); (1500, "10.0.0.1")] in
  fst (rateLimited 1900 "10.0.0.1" (serve h [])) = false
  /\ stored "10.0.0.1" (snd (rateLimited 1900 "10.0.0.1" (serve h [])))
     = [1000; 1500; 1900]
  /\ stored "10.0.0.2" (snd (rateLimited 1900 "10.0.0.1" (serve h []))) = [1200].
Proof.
  cbv zeta. split; [| split; reflexivity].
  refine (proj2 (proj2 (rateLimited_sliding_window
                          [(1000, "10.0.0.1"); (1200, "10.0.0.2"); (1500, "10.0.0.1")]
                          1900 "10.0.0.1" _)) _).
  - cbn [map fst app]. repeat constructor; lia.
  - cbn. lia.
Defined.

(* ------------------------------------------------------------------ *)
(** ** Pages: what they hold and how long they are *)
(* ------------------------------------------------------------------ *)

Lemma insert_sorted_Permutation (cmp : book -> book -> Z) (x : book) (l : list book) :
  Permutation (insert_sorted cmp x l) (x :: l).
Proof.
  induction l as [| y l IH]; simpl.
  - apply Permutation_refl.
  - destruct (cmp x y <? 0); [apply Permutation_refl |].
    apply perm_trans with (y :: x :: l); [now apply perm_skip | apply perm_swap].
Qed.

Lemma Array_sort_Permutation (cmp : book -> book -> Z) (l : list book) :
  Permutation (Array_sort cmp l) l.
Proof.
  unfold Array_sort.
  assert (G : forall l acc,
             Permutation (fold_left (fun acc x => insert_sorted cmp x acc) l acc)
                         (l ++ acc)).
  { clear l. intros l. induction l as [| x l IH]; intros acc; simpl.
    - apply Permutation_refl.
    - eapply perm_trans; [apply IH |].
      eapply perm_trans;
        [apply Permutation_app_head, insert_sorted_Permutation |].
      apply Permutation_sym, Permutation_middle. }
  specialize (G l []). now rewrite app_nil_r in G.
Qed.









(** X18.  A query at offset 0 whose limit in effect is an integer that is
    at least [total] returns every record that matches [q] exactly once:
    the page is a permutation of the matching records. *)
Theorem applyQuery_whole_page (l : list book) (url : searchParams)
  (page : list book) (m : meta) (n : Z) :
  applyQuery l url = Ok (page, m) ->
  offset m = Fin 0 0 ->
  limit m = Fin n 0 ->
  Z.of_nat (total m) <= n ->
  Permutation page (filter (matchesb (q m)) l).
Proof.
  intros H O L T. apply applyQuery_Ok in H. cbv zeta in H.
  destruct H as (_ & _ & _ & Tm & P).
  rewrite O, L, num_add_integers in P. cbn [Z.add] in P.
  rewrite (Array_slice_integers _ 0 n) in P by lia.
  cbn [Z.to_nat skipn] in P. rewrite firstn_all2 in P.
  - rewrite P. apply Array_sort_Permutation.
  - rewrite Array_sort_length, <- Tm. lia.
Qed.

Lemma applyQuery_whole_page_witness :
  let r := applyQuery (seed "2025-01-01T00:00:00.000Z") [("sort", "year"); ("dir", "desc")] in
  match r with
  | Ok (page, m) => Permutation page (seed "2025-01-01T00:00:00.000Z")
  | Throw _ => False
  end.
Proof.
  cbv zeta.
  destruct (applyQuery (seed "2025-01-01T00:00:00.000Z")
                       [("sort", "year"); ("dir", "desc")])
    as [[page m] | x] eqn:H.
  - pose proof (applyQuery_whole_page _ _ _ _ 20 H) as W.
    assert (Q : q m = "") by (vm_compute in H; inversion H; reflexivity).
    rewrite Q, filter_matchesb_empty in W. apply W.
    + vm_compute in H. inversion H. reflexivity.
    + vm_compute in H. inversion H. reflexivity.
    + vm_compute in H. inversion H. cbn. lia.
  - vm_compute in H. discriminate.
Defined.

(* ------------------------------------------------------------------ *)
(** ** Pages are sorted *)
(* ------------------------------------------------------------------ *)

Section Insertion.

Variable cmp : book -> book -> Z.
Variable R : book -> book -> Prop.
Variable P : book -> Prop.

Hypothesis before : forall x y, P x -> P y -> (cmp x y <? 0) = true -> R x y.
Hypothesis after : forall x y, P x -> P y -> (cmp x y <? 0) = false -> R y x.
Hypothesis R_trans : forall x y z, P x -> P y -> P z -> R x y -> R y z -> R x z.

Lemma insert_sorted_ordered (x : book) (l : list book) :
  P x -> Forall P l -> StronglySorted R l ->
  StronglySorted R (insert_sorted cmp x l).
Proof.
  intros Px. induction l as [| y l IH]; intros Pl S; simpl.
  - constructor; constructor.
  - inversion Pl as [| ? ? Py Pl']; subst.
    inversion S as [| ? ? S' Ry]; subst.
    destruct (cmp x y <? 0) eqn:C.
    + constructor; [exact S |]. constructor; [now apply before |].
      rewrite Forall_forall in *. intros z I.
      apply (R_trans x y z); auto.
    + constructor; [now apply IH |].
      rewrite Forall_forall in *. intros z I.
      apply insert_sorted_In in I. destruct I as [-> | I]; auto.
Qed.

Lemma Array_sort_ordered (l : list book) :
  Forall P l -> StronglySorted R (Array_sort cmp l).
Proof.
  unfold Array_sort.
  assert (G : forall l acc, Forall P l -> Forall P acc -> StronglySorted R acc ->
             StronglySorted R (fold_left (fun acc x => insert_sorted cmp x acc) l acc)).
  { clear l. intros l. induction l as [| x l IH]; intros acc Pl Pa S; simpl.
    - exact S.
    - inversion Pl; subst. apply IH; [assumption | |].
      + rewrite Forall_forall in *. intros z I.
        apply insert_sorted_In in I. destruct I as [-> | I]; auto.
      + now apply insert_sorted_ordered. }
  intros Pl. apply G; [exact Pl | constructor | constructor].
Qed.

End Insertion.

Lemma StronglySorted_skipn {A : Type} (R : A -> A -> Prop) (n : nat) (l : list A) :
  StronglySorted R l -> StronglySorted R (skipn n l).
Proof.
  revert l. induction n as [| n IH]; intros l S; [exact S |].
  destruct l as [| x l]; [exact S |]. simpl. apply IH. now inversion S.
Qed.

Lemma StronglySorted_firstn {A : Type} (R : A -> A -> Prop) (n : nat) (l : list A) :
  StronglySorted R l -> StronglySorted R (firstn n l).
Proof.
  revert l. induction n as [| n IH]; intros l S; [constructor |].
  destruct l as [| x l]; [constructor |]. simpl.
  inversion S as [| ? ? S' F]; subst. constructor; [now apply IH |].
  rewrite Forall_forall in *. intros z I. apply F.
  rewrite <- (firstn_skipn n l). apply in_or_app. now left.
Qed.

(** [<] on strings is a strict order whose complement is transitive. *)
Lemma ltb_asym (a b : string) : String.ltb a b = true -> String.ltb b a = false.
Proof.
  unfold String.ltb. rewrite (String.compare_antisym b a).
  destruct (String.compare a b); simpl; congruence.
Qed.

Lemma ltb_false_iff (a b : string) :
  String.ltb b a = false <-> OrderedTypeEx.String_as_OT.lt a b \/ a = b.
Proof.
  unfold String.ltb. rewrite (String.compare_antisym b a).
  rewrite <- OrderedTypeEx.String_as_OT.cmp_lt, <- OrderedTypeEx.String_as_OT.cmp_eq.
  unfold OrderedTypeEx.String_as_OT.cmp.
  destruct (String.compare a b); simpl; split; intros H;
    try reflexivity; try discriminate; auto;
    destruct H; discriminate.
Qed.

Lemma ltb_false_trans (a b c : string) :
  String.ltb b a = false -> String.ltb c b = false -> String.ltb c a = false.
Proof.
  rewrite !ltb_false_iff. intros [H1 | ->] [H2 | ->]; auto.
  left. eapply OrderedTypeEx.String_as_OT.lt_trans; eassumption.
Qed.

(** [<] on numbers other than [NaN], likewise. *)
Lemma num_ltb_asym (x y : number) : num_ltb x y = true -> num_ltb y x = false.
Proof.
  unfold num_ltb, num_compare.
  destruct x as [| | | a i], y as [| | | b j]; try reflexivity; try discriminate.
  destruct (Z.compare_spec (a * pow10 j) (b * pow10 i)); try discriminate.
  intros _. destruct (Z.compare_spec (b * pow10 i) (a * pow10 j)); try reflexivity; lia.
Qed.

Lemma num_ltb_false_trans (x y z : number) :
  Number_isNaN x = false -> Number_isNaN y = false -> Number_isNaN z = false ->
  num_ltb y x = false -> num_ltb z y = false -> num_ltb z x = false.
Proof.
  unfold num_ltb, num_compare.
  destruct x as [| | | a i], y as [| | | b j], z as [| | | c k];
    try reflexivity; try discriminate.
  intros _ _ _.
  pose proof (pow10_pos i) as Pi. pose proof (pow10_pos j) as Pj.
  pose proof (pow10_pos k) as Pk.
  destruct (Z.compare_spec (b * pow10 i) (a * pow10 j)); try discriminate;
    destruct (Z.compare_spec (c * pow10 j) (b * pow10 k)); try discriminate;
    destruct (Z.compare_spec (c * pow10 i) (a * pow10 k)); try reflexivity;
    intros _ _; exfalso;
    assert (a * pow10 k * pow10 j <= c * pow10 i * pow10 j) by nia; nia.
Qed.

Lemma js_lt_strings (x y : jsvalue) :
  is_string x = true -> is_string y = true ->
  js_lt x y = String.ltb (text x) (text y).
Proof. destruct x, y; try discriminate. reflexivity. Qed.

Lemma js_lt_ordinals (x y : jsvalue) :
  is_ordinal x = true -> is_ordinal y = true ->
  js_lt x y = num_ltb (ToNumber x) (ToNumber y)
  /\ Number_isNaN (ToNumber x) = false.
Proof.
  destruct x as [| | | n | s | |], y as [| | | n' | s' | |]; try discriminate;
    cbn [is_ordinal]; intros X Y;
    try (apply String.eqb_eq in X; subst s);
    try (apply String.eqb_eq in Y; subst s');
    try apply negb_true_iff in X;
    (split; [reflexivity | assumption || reflexivity]).
Qed.

Lemma js_lt_asym (x y : jsvalue) :
  (is_string x = true /\ is_string y = true)
  \/ (is_ordinal x = true /\ is_ordinal y = true) ->
  js_lt x y = true -> js_lt y x = false.
Proof.
  intros [[X Y] | [X Y]].
  - rewrite !js_lt_strings by assumption. apply ltb_asym.
  - rewrite (proj1 (js_lt_ordinals x y X Y)), (proj1 (js_lt_ordinals y x Y X)).
    apply num_ltb_asym.
Qed.

Lemma in_order_sorts (s d : string) (l : list book) :
  comparable_keys s l ->
  StronglySorted (in_order s d) (Array_sort (compare_by s (dir_sign d)) l).
Proof.
  intros [K | K].
  - apply (Array_sort_ordered _ _ (fun b => is_string (sort_value s b) = true)).
    + intros x y Px Py. unfold compare_by, in_order, dir_sign, js_gt.
      fold (sort_value s x). fold (sort_value s y).
      destruct (String.eqb d "desc");
        destruct (js_lt (sort_value s y) (sort_value s x)) eqn:G;
        destruct (js_lt (sort_value s x) (sort_value s y)) eqn:L;
        cbn; try congruence.
      intros _. rewrite <- G. apply js_lt_asym; auto.
    + intros x y Px Py. unfold compare_by, in_order, dir_sign, js_gt.
      fold (sort_value s x). fold (sort_value s y).
      destruct (String.eqb d "desc");
        destruct (js_lt (sort_value s y) (sort_value s x)) eqn:G;
        destruct (js_lt (sort_value s x) (sort_value s y)) eqn:L;
        cbn; try congruence.
      intros _. rewrite <- L. apply js_lt_asym; auto.
    + intros x y z Px Py Pz. unfold in_order.
      rewrite !js_lt_strings by assumption.
      destruct (String.eqb d "desc"); intros A B.
      * exact (ltb_false_trans _ _ _ B A).
      * exact (ltb_false_trans _ _ _ A B).
    + apply Forall_forall. exact K.
  - apply (Array_sort_ordered _ _ (fun b => is_ordinal (sort_value s b) = true)).
    + intros x y Px Py. unfold compare_by, in_order, dir_sign, js_gt.
      fold (sort_value s x). fold (sort_value s y).
      destruct (String.eqb d "desc");
        destruct (js_lt (sort_value s y) (sort_value s x)) eqn:G;
        destruct (js_lt (sort_value s x) (sort_value s y)) eqn:L;
        cbn; try congruence.
      intros _. rewrite <- G. apply js_lt_asym; auto.
    + intros x y Px Py. unfold compare_by, in_order, dir_sign, js_gt.
      fold (sort_value s x). fold (sort_value s y).
      destruct (String.eqb d "desc");
        destruct (js_lt (sort_value s y) (sort_value s x)) eqn:G;
        destruct (js_lt (sort_value s x) (sort_value s y)) eqn:L;
        cbn; try congruence.
      intros _. rewrite <- L. apply js_lt_asym; auto.
    + intros x y z Px Py Pz. unfold in_order.
      destruct (js_lt_ordinals _ _ Px Py) as [Exy Nx].
      destruct (js_lt_ordinals _ _ Py Pz) as [Eyz Ny].
      destruct (js_lt_ordinals _ _ Pz Px) as [Ezx Nz].
      rewrite (proj1 (js_lt_ordinals _ _ Px Pz)), Ezx.
      rewrite (proj1 (js_lt_ordinals _ _ Py Px)), (proj1 (js_lt_ordinals _ _ Pz Py)).
      rewrite Exy, Eyz.
      destruct (String.eqb d "desc"); intros A B.
      * exact (num_ltb_false_trans _ _ _ Nz Ny Nx B A).
      * exact (num_ltb_false_trans _ _ _ Nx Ny Nz A B).
    + apply Forall_forall. exact K.
Qed.

(** X19.  When the values the matching records have under the sort key are
    all strings, or all numbers (a missing value counting as the empty
    string), the page is in order: ascending, no record is followed by one
    whose value is less; descending, by none whose value is greater. *)
Theorem applyQuery_sorted (l : list book) (url : searchParams)
  (page : list book) (m : meta) :
  applyQuery l url = Ok (page, m) ->
  comparable_keys (sort m) (filter (matchesb (q m)) l) ->
  StronglySorted (in_order (sort m) (dir m)) page.
Proof.
  intros H K. apply applyQuery_Ok in H. cbv zeta in H.
  destruct H as (_ & _ & _ & _ & P). rewrite P.
  unfold Array_slice. cbv zeta.
  apply StronglySorted_firstn, StronglySorted_skipn, in_order_sorts, K.
Qed.

Lemma applyQuery_sorted_witness :
  let r := applyQuery (seed "2025-01-01T00:00:00.000Z") [("sort", "rating"); ("dir", "DESC")] in
  match r with
  | Ok (page, m) =>
      comparable_keys (sort m) (filter (matchesb (q m)) (seed "2025-01-01T00:00:00.000Z"))
      /\ StronglySorted (in_order (sort m) (dir m)) page
      /\ map id page = [JStr "b2"; JStr "b1"; JStr "b3"]
  | Throw _ => False
  end.
Proof.
  cbv zeta.
  destruct (applyQuery (seed "2025-01-01T00:00:00.000Z")
                       [("sort", "rating"); ("dir", "DESC")])
    as [[page m] | x] eqn:H.
  - assert (K : comparable_keys (sort m)
                  (filter (matchesb (q m)) (seed "2025-01-01T00:00:00.000Z"))).
    { assert (M : sort m = "rating" /\ q m = "")
        by (vm_compute in H; inversion H; split; reflexivity).
      destruct M as [-> ->]. rewrite filter_matchesb_empty.
      right. intros b I. simpl in I.
      destruct I as [<- | [<- | [<- | []]]]; reflexivity. }
    split; [exact K |]. split; [exact (applyQuery_sorted _ _ _ _ H K) |].
    vm_compute in H. inversion H. reflexivity.
  - vm_compute in H. discriminate.
Defined.

(* ------------------------------------------------------------------ *)
(** ** Searching after mutations *)
(* ------------------------------------------------------------------ *)










Lemma lowered_Throw (v : jsvalue) (x : exn) : lowered v = Throw x -> x = TypeError.
Proof.
  unfold lowered. destruct (js_or v (JStr "")); intros H; now inversion H.
Qed.

Lemma matches_Throw (q : string) (b : book) (x : exn) :
  matches q b = Throw x -> x = TypeError.
Proof.
  unfold matches. intros H.
  destruct (lowered (title b)) eqn:T; [| apply lowered_Throw in T; inversion H; congruence].
  cbn [bind] in H. destruct (includes a q); [discriminate |].
  destruct (lowered (author b)) eqn:A; [| apply lowered_Throw in A; inversion H; congruence].
  cbn [bind] in H. destruct (includes a0 q); [discriminate |].
  destruct (lowered (id b)) eqn:I; [| apply lowered_Throw in I; inversion H; congruence].
  cbn [bind] in H. destruct (includes a1 q); discriminate.
Qed.

(** [filter] throws as soon as the predicate throws on one element. *)
Lemma Array_filter_Throw (q : string) (l : list book) (b : book) :
  In b l -> matches q b = Throw TypeError ->
  Array_filter (matches q) l = Throw TypeError.
Proof.
  intros I M. induction l as [| a l IH]; [destruct I |]. simpl.
  destruct (matches q a) as [keep | x] eqn:Ma.
  - cbn [bind]. destruct I as [-> | I]; [congruence |].
    now rewrite (IH I).
  - apply matches_Throw in Ma. now subst.
Qed.

(** X21.  The validator does not look at the type of [author]: a creation
    whose author is a truthy value that is not a string (a number, [true],
    an array, an object) succeeds, and from then on every query whose [q]
    is not empty and does not occur in the title of that record throws a
    [TypeError]. *)
Theorem createBook_breaks_search (e : env) (input v : jsvalue) (s s' : state)
  (b : book) (url : searchParams) :
  createBook e input s = (Ok b, s') ->
  js_get "author" input = Ok v ->
  truthy v = true ->
  is_string v = false ->
  toLowerCase (param_or "q" "" url) <> "" ->
  includes (toLowerCase (text (title b))) (toLowerCase (param_or "q" "" url)) = false ->
  author b = v
  /\ applyQuery (books s') url = Throw TypeError.
Proof.
  intros C G T S Q I. apply createBook_Ok_inv in C.
  destruct C as (r & R & V & B & ->).
  destruct (validateBook_inv _ _ _ R) as (o & P & _ & L & _ & N).
  rewrite (js_get_props _ _ _ P) in G.
  assert (G' : get "author" (value r) = v).
  { unfold get in *. rewrite L by (simpl; tauto). congruence. }
  assert (A : author b = v).
  { subst b. cbn [author]. unfold js_or. now rewrite G', T. }
  split; [exact A |].
  assert (M : matches (toLowerCase (param_or "q" "" url)) b = Throw TypeError).
  { unfold matches.
    destruct (N V eq_refl) as (t & Et & _).
    assert (Tb : title b = JStr t) by (subst b; exact Et).
    rewrite (lowered_total (title b)) by (right; now rewrite Tb).
    cbn [bind]. rewrite I, A.
    unfold lowered, js_or. rewrite T. now destruct v. }
  unfold applyQuery.
  fold (filtered (toLowerCase (param_or "q" "" url)) (books s ++ [b])%list).
  cbn [persist books]. unfold filtered.
  apply String.eqb_neq in Q. rewrite Q. cbn [negb].
  rewrite (Array_filter_Throw _ _ b); [reflexivity | | exact M].
  apply in_or_app. right. now left.
Qed.

Lemma createBook_breaks_search_witness :
  let s := initial "2025-01-01T00:00:00.000Z" in
  let r := createBook (mkEnv "2025-01-02T00:00:00.000Z" "a1b2c3")
                      (JObj [("title", JStr "Dune"); ("author", JNum (Fin 42 0))]) s in
  match fst r with
  | Ok b => applyQuery (books (snd r)) [("q", "Martin")] = Throw TypeError
            /\ applyQuery (books s) [("q", "Martin")] <> Throw TypeError
  | Throw _ => False
  end.
Proof.
  cbv zeta.
  destruct (createBook (mkEnv "2025-01-02T00:00:00.000Z" "a1b2c3")
                       (JObj [("title", JStr "Dune"); ("author", JNum (Fin 42 0))])
                       (initial "2025-01-01T00:00:00.000Z")) as [[b | x] s'] eqn:C;
    cbn [fst snd].
  - split; [| vm_compute; discriminate].
    refine (proj2 (createBook_breaks_search
                     (mkEnv "2025-01-02T00:00:00.000Z" "a1b2c3")
                     (JObj [("title", JStr "Dune"); ("author", JNum (Fin 42 0))])
                     (JNum (Fin 42 0)) (initial "2025-01-01T00:00:00.000Z") s' b
                     [("q", "Martin")] C _ _ _ _ _)); try reflexivity.
    + vm_compute. discriminate.
    + vm_compute in C. inversion C. reflexivity.
  - vm_compute in C. discriminate.
Defined.
